(** * Connection listeners (listener.c): a shallow embedding

    The functions of [listener.c] are written as functions of a small
    state monad over a [World].  The world holds what lies outside the
    file: the history of every external call the code has made (libc,
    the socket layer, the reactor, the allocator, the logger and the user
    callback), each with the value it returned, and the environment that
    decides what the next call returns.  Every property below is then a
    statement about the calls the code makes, their order, their
    arguments and what is returned.

    The user callback is recorded as a call; what it does to the world is
    not modelled. *)

From Stdlib Require Import ZArith List String Bool Lia.
Import ListNotations.
Open Scope Z_scope.

(** ** Data *)

(** [struct sockaddr] and [struct sockaddr_storage]: the family and the
    family-specific bytes. *)
Record sockaddr := mk_sockaddr {
  sa_family : Z;
  sa_data : list Z
}.

(** Functions of this file whose address is stored in a struct. *)
Inductive handler :=
| no_handler
| fn_listener_read_cb
| fn_accepted_socket_cb.

(** The two [static const struct evconnlistener_ops] tables; the handle
    stores a pointer to one of them. *)
Inductive evconnlistener_ops :=
| evconnlistener_event_ops
| evconnlistener_iocp_ops.

(** [struct evconnlistener]. *)
Record evconnlistener := mk_evconnlistener {
  ops : evconnlistener_ops;
  cb : Z;
  user_data : Z;
  flags : Z
}.

(** [struct event], the fields [event_assign] fills in. *)
Record event := mk_event {
  ev_base : Z;
  ev_fd : Z;
  ev_events : Z;
  ev_callback : handler;
  ev_arg : Z
}.

(** [struct evconnlistener_event].  [lev_ptr] is the address [mm_calloc]
    gave the struct; [base] is its first member, so [&lev->base] is the
    same address. *)
Record evconnlistener_event := mk_evconnlistener_event {
  lev_ptr : Z;
  base : evconnlistener;
  listener : event
}.

(** [struct evconnlistener_iocp] (WIN32). *)
Record evconnlistener_iocp := mk_evconnlistener_iocp {
  iocp_ptr : Z;
  iocp_base : evconnlistener;
  iocp_fd : Z;
  port : Z;
  n_accepting : Z;
  accepting : Z
}.

(** [struct accepting_socket] (WIN32).  [as_lev] is the owner the [lev]
    pointer refers to; none of the owner's fields changes once the slot
    exists. *)
Record accepting_socket := mk_accepting_socket {
  as_ptr : Z;
  s : Z;
  as_lev : evconnlistener_iocp;
  buflen : Z;
  addrbuf : list Z
}.

Definition set_s (a : accepting_socket) (v : Z) : accepting_socket :=
  mk_accepting_socket (as_ptr a) v (as_lev a) (buflen a) (addrbuf a).

Definition set_addrbuf (a : accepting_socket) (b : list Z) : accepting_socket :=
  mk_accepting_socket (as_ptr a) (s a) (as_lev a) (buflen a) b.

Definition set_accepting (l : evconnlistener_iocp) (p : Z) : evconnlistener_iocp :=
  mk_evconnlistener_iocp (iocp_ptr l) (iocp_base l) (iocp_fd l) (port l)
    (n_accepting l) p.

(** ** The outside world *)

(** Every call that leaves [listener.c], with its arguments. *)
Inductive Call :=
| c_listen (fd backlog : Z)
| c_socket (family type protocol : Z)
| c_accept (fd : Z)
| c_bind (fd : Z) (sa : sockaddr) (socklen : Z)
| c_getsockname (fd : Z)
| c_setsockopt (fd level optname optval optlen : Z)
| c_fcntl (fd cmd arg : Z)
| c_close (fd : Z)
| c_make_socket_nonblocking (fd : Z)
| c_make_listen_socket_reuseable (fd : Z)
| c_mm_calloc (n size : Z)
| c_mm_free (p : Z)
| c_event_assign (ev base fd events : Z) (fn : handler) (arg : Z)
| c_event_add (ev : Z)
| c_event_del (ev : Z)
| c_event_sock_warn (fd : Z) (msg : string)
| c_event_warn (msg : string)
| c_event_warnx (msg : string)
| c_user_cb (fn lev fd : Z) (sa : option sockaddr) (socklen : Z) (arg : Z)
| c_event_overlapped_init (o : Z) (fn : handler)
| c_event_iocp_port_associate (port fd key : Z)
| c_AcceptEx (listen_fd accept_fd buf rcvlen local_len remote_len : Z)
| c_WSAGetLastError.

(** A call together with the value it returned (0 for [void] calls). *)
Definition Event : Type := Call * Z.

(** An established connection waiting in the kernel: the descriptor
    [accept] will return for it, the peer address and its length. *)
Record connection := mk_connection {
  conn_fd : Z;
  conn_peer : sockaddr;
  conn_socklen : Z
}.

(** What one [accept] yields: a connection, or -1 with an error code. *)
Inductive accept_outcome :=
| accept_conn (c : connection)
| accept_fail (err : Z).

Record World := mk_World {
  (** the calls made so far, oldest first *)
  trace : list Event;
  (** what the next [accept] calls on the listening socket yield, in
      order; once exhausted nothing is pending *)
  pending : list accept_outcome;
  (** [errno] (POSIX) or the last socket error (WIN32) *)
  sock_errno : Z;
  (** the local address of each descriptor, as [getsockname] reports it *)
  sockname : Z -> sockaddr;
  (** the bytes a completed [AcceptEx] left in the slot's buffer *)
  acceptex_data : list Event -> list Z;
  (** the return value of any other call, given the history *)
  reply : list Event -> Call -> Z
}.

Definition log_event (e : Event) (w : World) : World :=
  mk_World (trace w ++ [e]) (pending w) (sock_errno w) (sockname w)
    (acceptex_data w) (reply w).

(** ** The monad: state passing over [World]; [None] is a run that used
    up its fuel (a loop or a recursion that has not come back). *)
Definition M (A : Type) : Type := World -> option (A * World).

Definition ret {A} (a : A) : M A := fun w => Some (a, w).

Definition bind {A B} (m : M A) (f : A -> M B) : M B :=
  fun w => match m w with
           | Some (a, w') => f a w'
           | None => None
           end.

Definition out_of_fuel {A} : M A := fun _ => None.

Declare Scope listener_scope.
Delimit Scope listener_scope with listener.
Notation "x <- m ;; k" := (bind m (fun x => k))
  (at level 61, m at next level, right associativity) : listener_scope.
Notation "m ;;; k" := (bind m (fun _ => k))
  (at level 61, right associativity) : listener_scope.
Notation "' pat <- m ;; k" := (bind m (fun x => match x with pat => k end))
  (at level 61, pat pattern, m at next level, right associativity) : listener_scope.
Open Scope listener_scope.

(** A call whose result the environment decides. *)
Definition call (c : Call) : M Z :=
  fun w => let r := reply w (trace w) c in Some (r, log_event (c, r) w).

(** A call that returns nothing. *)
Definition call_void (c : Call) : M unit :=
  fun w => Some (tt, log_event (c, 0) w).

(** [returns m Q]: the run [m] comes back, with a result and a world
    that satisfy [Q]. *)
Definition returns {A} (m : option (A * World)) (Q : A -> World -> Prop) : Prop :=
  match m with
  | Some (a, w') => Q a w'
  | None => False
  end.

(** [on_return m Q]: if the run [m] comes back, its result and world
    satisfy [Q]. *)
Definition on_return {A} (m : option (A * World)) (Q : A -> World -> Prop)
  : Prop :=
  match m with
  | Some (a, w') => Q a w'
  | None => True
  end.

(** ** What the headers provide

    Constants, sizes and macros that [listener.c] takes from headers
    (event2/listener.h, event2/event.h, util-internal.h, the system's
    socket headers).  The code is verified for every choice of them. *)
Class Platform := {
  (** whether the file is compiled with [WIN32] defined *)
  WIN32 : bool;
  LEV_OPT_LEAVE_SOCKETS_BLOCKING : Z;
  LEV_OPT_CLOSE_ON_FREE : Z;
  LEV_OPT_CLOSE_ON_EXEC : Z;
  LEV_OPT_REUSEABLE : Z;
  EV_READ : Z;
  EV_PERSIST : Z;
  AF_UNSPEC : Z;
  AF_INET : Z;
  AF_INET6 : Z;
  SOCK_STREAM : Z;
  SOL_SOCKET : Z;
  SO_KEEPALIVE : Z;
  SO_UPDATE_ACCEPT_CONTEXT : Z;
  F_SETFD : Z;
  FD_CLOEXEC : Z;
  INVALID_SOCKET : Z;
  ERROR_IO_PENDING : Z;
  (** the error of an [accept] that finds no connection pending *)
  EAGAIN : Z;
  sizeof_int : Z;
  sizeof_pointer : Z;
  sizeof_sockaddr_storage : Z;
  sizeof_sockaddr_in : Z;
  sizeof_sockaddr_in6 : Z;
  sizeof_evconnlistener_event : Z;
  sizeof_accepting_socket : Z;
  (** the macro of util-internal.h that classifies an [accept] error *)
  EVUTIL_ERR_ACCEPT_RETRIABLE : Z -> bool;
  (** [ext->GetAcceptExSockaddrs]: reads the local and the remote
      address, each with its length, out of an [AcceptEx] buffer *)
  GetAcceptExSockaddrs :
    list Z -> Z -> Z -> Z -> (option sockaddr * Z) * (option sockaddr * Z)
}.

(** [flags & opt] is non-zero. *)
Definition has_flag (fl opt : Z) : bool := negb (Z.land fl opt =? 0).

Section Listener.
Context {P : Platform}.

(** ** System calls with more than a return value *)

(** Modelled from the spec: the system call
    [accept(descriptor) -> (new_descriptor, peer_address) | error], which
    is not part of the file.  [accept(fd, &ss, &socklen)] takes the next
    outcome the world has pending; a failure returns -1 and sets the
    error code, and with nothing pending the error is [EAGAIN]. *)
Definition accept (fd : Z) : M (Z * sockaddr * Z) :=
  fun w =>
    let ss0 := mk_sockaddr 0 [] in
    match pending w with
    | accept_conn c :: q =>
        Some ((conn_fd c, conn_peer c, conn_socklen c),
              mk_World (trace w ++ [(c_accept fd, conn_fd c)]) q (sock_errno w)
                (sockname w) (acceptex_data w) (reply w))
    | accept_fail err :: q =>
        Some ((-1, ss0, sizeof_sockaddr_storage),
              mk_World (trace w ++ [(c_accept fd, -1)]) q err
                (sockname w) (acceptex_data w) (reply w))
    | [] =>
        Some ((-1, ss0, sizeof_sockaddr_storage),
              mk_World (trace w ++ [(c_accept fd, -1)]) [] EAGAIN
                (sockname w) (acceptex_data w) (reply w))
    end.

(** Modelled from the spec: the macro [evutil_socket_geterror] of
    event2/util.h, which is not among the sources; it reads the error
    code the last failing socket call left. *)
Definition evutil_socket_geterror (fd : Z) : M Z :=
  fun w => Some (sock_errno w, w).

(** Modelled from the spec: the system call [getsockname], by which the
    constructor is to determine the socket's address family;
    [getsockname(fd, &ss, &socklen)] gives its return value and the
    address the world has for [fd]. *)
Definition getsockname (fd : Z) : M (Z * sockaddr) :=
  fun w => match call (c_getsockname fd) w with
           | Some (r, w') => Some ((r, sockname w fd), w')
           | None => None
           end.

(** Modelled from the spec: the reactor's
    [register(descriptor, interest, persistent, handler)]; event.c is not
    among the sources.  [event_assign] fills in the event; registering
    it is left to [event_add]. *)
Definition event_assign (ev b fd events : Z) (fn : handler) (arg : Z) : M event :=
  call_void (c_event_assign ev b fd events fn arg);;;
  ret (mk_event b fd events fn arg).

(** Modelled from the spec: the reactor's [get_descriptor(registration)];
    [event_get_fd] returns the descriptor the event was assigned. *)
Definition event_get_fd (ev : event) : Z := ev_fd ev.

(** ** The readiness backend *)

Definition event_listener_enable (lev_e : evconnlistener_event) : M Z :=
  call (c_event_add (lev_ptr lev_e)).

Definition event_listener_disable (lev_e : evconnlistener_event) : M Z :=
  call (c_event_del (lev_ptr lev_e)).

Definition event_listener_destroy (lev_e : evconnlistener_event) : M unit :=
  _ <- call (c_event_del (lev_ptr lev_e));;
  if has_flag (flags (base lev_e)) LEV_OPT_CLOSE_ON_FREE
  then _ <- call (c_close (event_get_fd (listener lev_e)));; ret tt
  else ret tt.

Definition event_listener_getfd (lev_e : evconnlistener_event) : M Z :=
  ret (event_get_fd (listener lev_e)).

(** The completion backend's table: these three do not look at the
    handle. *)
Definition iocp_listener_enable : M Z := ret 0.
Definition iocp_listener_disable : M Z := ret 0.
Definition iocp_listener_destroy : M unit := ret tt.

(** [lev->ops->enable(lev)] and the like, on a handle of the readiness
    backend. *)
Definition evconnlistener_enable (lev : evconnlistener_event) : M Z :=
  match ops (base lev) with
  | evconnlistener_event_ops => event_listener_enable lev
  | evconnlistener_iocp_ops => iocp_listener_enable
  end.

Definition evconnlistener_disable (lev : evconnlistener_event) : M Z :=
  match ops (base lev) with
  | evconnlistener_event_ops => event_listener_disable lev
  | evconnlistener_iocp_ops => iocp_listener_disable
  end.

Definition evconnlistener_free (lev : evconnlistener_event) : M unit :=
  match ops (base lev) with
  | evconnlistener_event_ops => event_listener_destroy lev
  | evconnlistener_iocp_ops => iocp_listener_destroy
  end;;;
  call_void (c_mm_free (lev_ptr lev)).

Definition evconnlistener_new (b cb_ ptr flags_ backlog fd : Z)
  : M (option evconnlistener_event) :=
  let rest : M (option evconnlistener_event) :=
    p <- call (c_mm_calloc 1 sizeof_evconnlistener_event);;
    if p =? 0 then ret None
    else
      ev <- event_assign p b fd (Z.lor EV_READ EV_PERSIST)
              fn_listener_read_cb p;;
      let lev := mk_evconnlistener_event p
                   (mk_evconnlistener evconnlistener_event_ops cb_ ptr flags_)
                   ev in
      _ <- evconnlistener_enable lev;;
      ret (Some lev)
  in
  if backlog >? 0 then
    r <- call (c_listen fd backlog);;
    if r <? 0 then ret None else rest
  else if backlog <? 0 then
    r <- call (c_listen fd 128);;
    if r <? 0 then ret None else rest
  else rest.

Definition evconnlistener_new_bind (b cb_ ptr flags_ backlog : Z)
    (sa : option sockaddr) (socklen : Z)
  : M (option evconnlistener_event) :=
  let on := 1 in
  let family := match sa with Some a => sa_family a | None => AF_UNSPEC end in
  if backlog =? 0 then ret None
  else
    fd <- call (c_socket family SOCK_STREAM 0);;
    if fd =? -1 then ret None
    else
      r <- call (c_make_socket_nonblocking fd);;
      if r <? 0 then ret None
      else
        let rest : M (option evconnlistener_event) :=
          _ <- call (c_setsockopt fd SOL_SOCKET SO_KEEPALIVE on sizeof_int);;
          (if has_flag flags_ LEV_OPT_REUSEABLE
           then _ <- call (c_make_listen_socket_reuseable fd);; ret tt
           else ret tt);;;
          match sa with
          | Some a =>
              r <- call (c_bind fd a socklen);;
              if r <? 0 then _ <- call (c_close fd);; ret None
              else evconnlistener_new b cb_ ptr flags_ backlog fd
          | None => evconnlistener_new b cb_ ptr flags_ backlog fd
          end
        in
        if negb WIN32 && has_flag flags_ LEV_OPT_CLOSE_ON_EXEC then
          r <- call (c_fcntl fd F_SETFD FD_CLOEXEC);;
          if r =? -1 then _ <- call (c_close fd);; ret None
          else rest
        else rest.

(** The [while (1)] of [listener_read_cb]; one unit of fuel per round. *)
Fixpoint listener_read_cb_loop (fuel : nat) (fd : Z)
    (lev : evconnlistener_event) : M unit :=
  match fuel with
  | O => out_of_fuel
  | S fuel' =>
      '(new_fd, ss, socklen) <- accept fd;;
      if new_fd <? 0 then ret tt
      else
        (if negb (has_flag (flags (base lev)) LEV_OPT_LEAVE_SOCKETS_BLOCKING)
         then _ <- call (c_make_socket_nonblocking new_fd);; ret tt
         else ret tt);;;
        call_void (c_user_cb (cb (base lev)) (lev_ptr lev) new_fd (Some ss)
                     socklen (user_data (base lev)));;;
        listener_read_cb_loop fuel' fd lev
  end.

Definition listener_read_cb (fuel : nat) (fd what : Z)
    (lev : evconnlistener_event) : M unit :=
  listener_read_cb_loop fuel fd lev;;;
  err <- evutil_socket_geterror fd;;
  if EVUTIL_ERR_ACCEPT_RETRIABLE err then ret tt
  else call_void (c_event_sock_warn fd "Error from accept() call").

(** ** The completion backend (compiled under [WIN32]) *)

(** Modelled from the spec: the completion port's
    [post_accept(listening_descriptor, target_socket, buffer,
    completion_handler)], a system extension function.
    [ext->AcceptEx(...)] gives the BOOL it returns and the bytes found in
    the slot's buffer afterwards (new ones when the accept completed at
    once). *)
Definition AcceptEx (listen_fd accept_fd : Z) (a : accepting_socket)
    (rcvlen local_len remote_len : Z) : M (Z * list Z) :=
  fun w =>
    match call (c_AcceptEx listen_fd accept_fd (as_ptr a) rcvlen local_len
                  remote_len) w with
    | Some (r, w') =>
        Some ((r, if r =? 0 then addrbuf a else acceptex_data w (trace w')), w')
    | None => None
    end.

Definition new_accepting_socket (lev : evconnlistener_iocp) (family : Z)
  : M (option accepting_socket) :=
  let rest (addrlen : Z) : M (option accepting_socket) :=
    let buflen_ := (addrlen + 16) * 2 in
    res <- call (c_mm_calloc 1 (sizeof_accepting_socket - 1 + buflen_));;
    if res =? 0 then ret None
    else
      call_void (c_event_overlapped_init res fn_accepted_socket_cb);;;
      ret (Some (mk_accepting_socket res INVALID_SOCKET lev buflen_ []))
  in
  if family =? AF_INET then rest sizeof_sockaddr_in
  else if family =? AF_INET6 then rest sizeof_sockaddr_in6
  else ret None.

(** [start_accepting] and [accepted_socket_cb] call each other; each call
    takes one unit of fuel.  Both return the slot as they leave it.
    [EVUTIL_ASSERT(ext->GetAcceptExSockaddrs)] holds: the platform
    provides the function. *)
Fixpoint start_accepting (fuel : nat) (as_ : accepting_socket)
  : M (Z * accepting_socket) :=
  match fuel with
  | O => out_of_fuel
  | S fuel' =>
      let family := AF_INET in
      s_ <- call (c_socket family SOCK_STREAM 0);;
      if s_ =? INVALID_SOCKET then ret (-1, as_)
      else
        _ <- call (c_setsockopt s_ SOL_SOCKET SO_UPDATE_ACCEPT_CONTEXT
                     (iocp_fd (as_lev as_)) sizeof_pointer);;
        (if negb (has_flag (flags (iocp_base (as_lev as_)))
                    LEV_OPT_LEAVE_SOCKETS_BLOCKING)
         then _ <- call (c_make_socket_nonblocking s_);; ret tt
         else ret tt);;;
        r <- call (c_event_iocp_port_associate (port (as_lev as_)) s_ 1);;
        if r <? 0 then ret (-1, as_)
        else
          let as_ := set_s as_ s_ in
          '(ok, buf) <- AcceptEx (iocp_fd (as_lev as_)) s_ as_ 0
                          (Z.quot (buflen as_) 2) (Z.quot (buflen as_) 2);;
          if negb (ok =? 0) then
            as_ <- accepted_socket_cb fuel' (set_addrbuf as_ buf) 1 0;;
            ret (0, as_)
          else
            err <- call c_WSAGetLastError;;
            if err =? ERROR_IO_PENDING then ret (0, as_)
            else ret (-1, as_)
  end
with accepted_socket_cb (fuel : nat) (as_ : accepting_socket) (key n : Z)
  : M accepting_socket :=
  match fuel with
  | O => out_of_fuel
  | S fuel' =>
      let '((sa_local, socklen_local), (sa_remote, socklen_remote)) :=
        GetAcceptExSockaddrs (addrbuf as_) 0
          (Z.quot (buflen as_) 2) (Z.quot (buflen as_) 2) in
      let as_ := set_s as_ INVALID_SOCKET in
      call_void (c_user_cb (cb (iocp_base (as_lev as_)))
                   (iocp_ptr (as_lev as_)) (s as_) sa_remote socklen_remote
                   (user_data (iocp_base (as_lev as_))));;;
      '(_, as_) <- start_accepting fuel' as_;;
      ret as_
  end.

Definition evconnlistener_new_async (fuel : nat)
    (b cb_ ptr flags_ backlog fd : Z) : M (option evconnlistener_iocp) :=
  let rest : M (option evconnlistener_iocp) :=
    '(r, ss) <- getsockname fd;;
    if negb (r =? 0) then
      call_void (c_event_sock_warn fd "getsockname");;; ret None
    else
      p <- call (c_mm_calloc 1 sizeof_evconnlistener_event);;
      if p =? 0 then call_void (c_event_warn "calloc");;; ret None
      else
        let lev := mk_evconnlistener_iocp p
                     (mk_evconnlistener evconnlistener_iocp_ops cb_ ptr flags_)
                     fd 0 1 0 in
        arr <- call (c_mm_calloc 1 sizeof_pointer);;
        let lev := set_accepting lev arr in
        if arr =? 0 then
          call_void (c_event_warn "calloc");;;
          call_void (c_mm_free p);;;
          _ <- call (c_close fd);;
          ret None
        else
          a0 <- new_accepting_socket lev (sa_family ss);;
          match a0 with
          | None =>
              call_void (c_event_warnx "Couldn't create accepting socket");;;
              call_void (c_mm_free arr);;;
              call_void (c_mm_free p);;;
              _ <- call (c_close fd);;
              ret None
          | Some as_ =>
              '(r, _) <- start_accepting fuel as_;;
              if r =? 0 then
                call_void (c_event_warnx "Couldn't start accepting on socket");;;
                ret None
              else ret (Some lev)
          end
  in
  if backlog >? 0 then
    r <- call (c_listen fd backlog);;
    if r <? 0 then ret None else rest
  else if backlog <? 0 then
    r <- call (c_listen fd 128);;
    if r <? 0 then ret None else rest
  else rest.

End Listener.

(** ** Reading a history *)

(** The [listen] calls of a history, as (descriptor, backlog). *)
Definition listen_calls (es : list Event) : list (Z * Z) :=
  flat_map (fun e => match fst e with
                     | c_listen fd backlog => [(fd, backlog)]
                     | _ => []
                     end) es.

(** The descriptors a history closes. *)
Definition closed_fds (es : list Event) : list Z :=
  flat_map (fun e => match fst e with c_close fd => [fd] | _ => [] end) es.

(** The descriptors a history creates with [socket]. *)
Definition created_fds (es : list Event) : list Z :=
  flat_map (fun e => match e with
                     | (c_socket _ _ _, fd) => [fd]
                     | _ => []
                     end) es.

(** The blocks a history gives back to the allocator. *)
Definition freed_blocks (es : list Event) : list Z :=
  flat_map (fun e => match fst e with c_mm_free p => [p] | _ => [] end) es.

(** The invocations of the user callback, in order. *)
Definition user_cb_calls (es : list Event) : list Call :=
  flat_map (fun e => match fst e with
                     | c_user_cb _ _ _ _ _ _ as c => [c]
                     | _ => []
                     end) es.

(** What the [accept] calls of a history returned, in order. *)
Definition accept_results (es : list Event) : list Z :=
  flat_map (fun e => match e with (c_accept _, r) => [r] | _ => [] end) es.

(** The messages a history sends to the logger. *)
Definition log_calls (es : list Event) : list Call :=
  flat_map (fun e => match fst e with
                     | c_event_sock_warn _ _ as c => [c]
                     | c_event_warn _ as c => [c]
                     | c_event_warnx _ as c => [c]
                     | _ => []
                     end) es.

(** Calls that take a listener down: removing a registration, closing a
    descriptor, freeing memory. *)
Definition teardown_calls (es : list Event) : list Call :=
  flat_map (fun e => match fst e with
                     | c_event_del _ as c => [c]
                     | c_close _ as c => [c]
                     | c_mm_free _ as c => [c]
                     | _ => []
                     end) es.

(** Modelled from the spec: the reactor's [register] and [unregister],
    each returning success or failure; event.c is not among the sources.
    The event at [ev] is registered with the reactor after a history when
    the last successful [event_add] or [event_del] on it was an
    [event_add].  Both return 0 on success. *)
Definition registered (ev : Z) (tr : list Event) : bool :=
  fold_left (fun st e =>
               match e with
               | (c_event_add x, r) => if (x =? ev) && (r =? 0) then true else st
               | (c_event_del x, r) => if (x =? ev) && (r =? 0) then false else st
               | _ => st
               end) tr false.

(** The callback invocation that delivers connection [c] on [lev]. *)
Definition delivery (lev : evconnlistener_event) (c : connection) : Call :=
  c_user_cb (cb (base lev)) (lev_ptr lev) (conn_fd c) (Some (conn_peer c))
    (conn_socklen c) (user_data (base lev)).

(** The next [accept] fails: nothing is pending, or an error is. *)
Definition next_accept_fails (q : list accept_outcome) : bool :=
  match q with
  | accept_conn _ :: _ => false
  | _ => true
  end.

(** The error code that failing [accept] leaves. *)
Definition next_accept_error {P : Platform} (q : list accept_outcome) : Z :=
  match q with
  | accept_fail err :: _ => err
  | _ => EAGAIN
  end.

(** The listening descriptors on which a history posts an accept with
    [AcceptEx]. *)
Definition posted_accepts (es : list Event) : list Z :=
  flat_map (fun e => match fst e with
                     | c_AcceptEx listen_fd _ _ _ _ _ => [listen_fd]
                     | _ => []
                     end) es.

(** The calls that change a registration. *)
Definition registration_calls (es : list Event) : list Call :=
  flat_map (fun e => match fst e with
                     | c_event_add _ as c => [c]
                     | c_event_del _ as c => [c]
                     | _ => []
                     end) es.

(** The calls that set a descriptor non-blocking. *)
Definition nonblocking_calls (es : list Event) : list Z :=
  flat_map (fun e => match fst e with
                     | c_make_socket_nonblocking fd => [fd]
                     | _ => []
                     end) es.

(** The shape of the history that the [while (1)] of [listener_read_cb]
    leaves behind when it accepts the connections [cs] and then meets a
    failing [accept]. *)
Inductive drain_history {P : Platform} (lev : evconnlistener_event) (fd : Z)
  : list connection -> list Event -> Prop :=
| drain_stop :
    drain_history lev fd [] [(c_accept fd, -1)]
| drain_blocking c cs es :
    has_flag (flags (base lev)) LEV_OPT_LEAVE_SOCKETS_BLOCKING = true ->
    drain_history lev fd cs es ->
    drain_history lev fd (c :: cs)
      ((c_accept fd, conn_fd c) :: (delivery lev c, 0) :: es)
| drain_nonblocking c cs es r :
    has_flag (flags (base lev)) LEV_OPT_LEAVE_SOCKETS_BLOCKING = false ->
    drain_history lev fd cs es ->
    drain_history lev fd (c :: cs)
      ((c_accept fd, conn_fd c)
       :: (c_make_socket_nonblocking (conn_fd c), r)
       :: (delivery lev c, 0) :: es).

(** What [listener_read_cb] logs after the loop, given the error the
    failing [accept] left. *)
Definition accept_warning {P : Platform} (fd err : Z) : list Event :=
  if EVUTIL_ERR_ACCEPT_RETRIABLE err then []
  else [(c_event_sock_warn fd "Error from accept() call", 0)].

(** ** Platforms and worlds to run the code on *)

(** A POSIX platform, with the values of Linux. *)
Definition linux : Platform := {|
  WIN32 := false;
  LEV_OPT_LEAVE_SOCKETS_BLOCKING := 1;
  LEV_OPT_CLOSE_ON_FREE := 2;
  LEV_OPT_CLOSE_ON_EXEC := 4;
  LEV_OPT_REUSEABLE := 8;
  EV_READ := 2;
  EV_PERSIST := 16;
  AF_UNSPEC := 0;
  AF_INET := 2;
  AF_INET6 := 10;
  SOCK_STREAM := 1;
  SOL_SOCKET := 1;
  SO_KEEPALIVE := 9;
  SO_UPDATE_ACCEPT_CONTEXT := 0;
  F_SETFD := 2;
  FD_CLOEXEC := 1;
  INVALID_SOCKET := -1;
  ERROR_IO_PENDING := 0;
  EAGAIN := 11;
  sizeof_int := 4;
  sizeof_pointer := 8;
  sizeof_sockaddr_storage := 128;
  sizeof_sockaddr_in := 16;
  sizeof_sockaddr_in6 := 28;
  sizeof_evconnlistener_event := 160;
  sizeof_accepting_socket := 64;
  EVUTIL_ERR_ACCEPT_RETRIABLE :=
    fun e => (e =? 4) || (e =? 11) || (e =? 103);
  GetAcceptExSockaddrs := fun _ _ _ _ => ((None, 0), (None, 0))
|}.

(** A WIN32 platform.  Its [GetAcceptExSockaddrs] reads the local address
    from the first half of the buffer and the remote one from the second
    half. *)
Definition win32 : Platform := {|
  WIN32 := true;
  LEV_OPT_LEAVE_SOCKETS_BLOCKING := 1;
  LEV_OPT_CLOSE_ON_FREE := 2;
  LEV_OPT_CLOSE_ON_EXEC := 4;
  LEV_OPT_REUSEABLE := 8;
  EV_READ := 2;
  EV_PERSIST := 16;
  AF_UNSPEC := 0;
  AF_INET := 2;
  AF_INET6 := 23;
  SOCK_STREAM := 1;
  SOL_SOCKET := 65535;
  SO_KEEPALIVE := 8;
  SO_UPDATE_ACCEPT_CONTEXT := 28683;
  F_SETFD := 0;
  FD_CLOEXEC := 0;
  INVALID_SOCKET := -1;
  ERROR_IO_PENDING := 997;
  EAGAIN := 10035;
  sizeof_int := 4;
  sizeof_pointer := 8;
  sizeof_sockaddr_storage := 128;
  sizeof_sockaddr_in := 16;
  sizeof_sockaddr_in6 := 28;
  sizeof_evconnlistener_event := 160;
  sizeof_accepting_socket := 64;
  EVUTIL_ERR_ACCEPT_RETRIABLE := fun e => (e =? 10035) || (e =? 10004);
  GetAcceptExSockaddrs := fun buf _ local_len remote_len =>
    ((Some (mk_sockaddr 2 (firstn (Z.to_nat local_len) buf)), 16),
     (Some (mk_sockaddr 2 (skipn (Z.to_nat local_len) buf)), 16))
|}.

(** A world with an empty history, the given connections pending, and an
    environment that answers every call with [answer]. *)
Definition world_of (q : list accept_outcome) (answer : Call -> Z) : World :=
  mk_World [] q 0 (fun _ => mk_sockaddr 2 []) (fun _ => []) (fun _ => answer).

(** An environment in which every call succeeds: [socket] returns
    descriptor 5, [mm_calloc] returns address 4096, everything else 0. *)
Definition all_succeed (c : Call) : Z :=
  match c with
  | c_socket _ _ _ => 5
  | c_mm_calloc _ _ => 4096
  | _ => 0
  end.

(** An environment in which the reactor refuses the registration:
    [event_add] returns -1; every other call succeeds. *)
Definition event_add_fails (c : Call) : Z :=
  match c with
  | c_event_add _ => -1
  | _ => all_succeed c
  end.

(** A handle of the readiness backend at address 4096, listening on
    descriptor 7, with callback 77, user data 88 and the given flags. *)
Definition sample_lev {P : Platform} (fl : Z) : evconnlistener_event :=
  mk_evconnlistener_event 4096
    (mk_evconnlistener evconnlistener_event_ops 77 88 fl)
    (mk_event 1 7 (Z.lor EV_READ EV_PERSIST) fn_listener_read_cb 4096).

(** Two connections, on descriptors 8 and 9. *)
Definition two_conns : list connection :=
  [ mk_connection 8 (mk_sockaddr 2 [192; 0; 2; 1]) 16;
    mk_connection 9 (mk_sockaddr 2 [192; 0; 2; 2]) 16 ].

(** A world in which the two connections are pending and the [accept]
    after them fails with error 24 (too many open files). *)
Definition two_pending_then_error : World :=
  world_of (map accept_conn two_conns ++ [accept_fail 24]) all_succeed.

(** An environment in which [evutil_make_socket_nonblocking] fails and
    every other call succeeds. *)
Definition nonblocking_fails (c : Call) : Z :=
  match c with
  | c_make_socket_nonblocking _ => -1
  | _ => all_succeed c
  end.

(** An IPv4 address to bind to. *)
Definition sample_addr : sockaddr := mk_sockaddr 2 [0; 80; 127; 0; 0; 1].

(** A WIN32 environment in which every step of the completion backend
    succeeds: [socket] returns 5, [mm_calloc] returns a block of its own
    for each size, [AcceptEx] returns FALSE with the last error
    [ERROR_IO_PENDING] (the accept is posted), everything else 0. *)
Definition iocp_all_succeed (c : Call) : Z :=
  match c with
  | c_socket _ _ _ => 5
  | c_mm_calloc _ size => 4096 * size
  | c_AcceptEx _ _ _ _ _ _ => 0
  | c_WSAGetLastError => 997
  | _ => 0
  end.

(** The same, except that [socket] fails. *)
Definition iocp_socket_fails (c : Call) : Z :=
  match c with
  | c_socket _ _ _ => -1
  | _ => iocp_all_succeed c
  end.

(** A world in which descriptors are bound to addresses of family 1
    (AF_UNIX). *)
Definition unix_socket_world : World :=
  mk_World [] [] 0 (fun _ => mk_sockaddr 1 []) (fun _ => [])
    (fun _ => iocp_all_succeed).

(** A completion-backend handle at address 4096 on descriptor 7, with
    callback 77 and user data 88, and its slot: the accept posted on
    socket 9 has completed and left the local address (bytes 1) and the
    remote address (bytes 2) in the 64-byte buffer. *)
Definition sample_iocp : evconnlistener_iocp :=
  mk_evconnlistener_iocp 4096
    (mk_evconnlistener evconnlistener_iocp_ops 77 88 0) 7 3 1 12288.

Definition sample_slot : accepting_socket :=
  mk_accepting_socket 8192 9 sample_iocp 64 (repeat 1 32 ++ repeat 2 32).

(** ** The rest of the public interface

    [evconnlistener_get_base], [evconnlistener_get_fd] and the entry
    points that go through [lev->ops], on a [struct evconnlistener *]
    that may point into a handle of either backend. *)

(** A [struct evconnlistener *]: the address of the [base] member of one
    of the two handle structs. *)
Inductive listener_ptr :=
| to_event (lev_e : evconnlistener_event)
| to_iocp (lev_iocp : evconnlistener_iocp).

(** [*lev], the struct the pointer is declared to point to. *)
Definition deref (lev : listener_ptr) : evconnlistener :=
  match lev with
  | to_event lev_e => base lev_e
  | to_iocp lev_iocp => iocp_base lev_iocp
  end.

(** The pointer as a number: [base] is the first member of both
    structs. *)
Definition address_of (lev : listener_ptr) : Z :=
  match lev with
  | to_event lev_e => lev_ptr lev_e
  | to_iocp lev_iocp => iocp_ptr lev_iocp
  end.

(** [EVUTIL_UPCAST(lev, struct evconnlistener_event, base)]: the
    enclosing struct, when the pointer does point into one of this
    type. *)
Definition upcast_event (lev : listener_ptr) : option evconnlistener_event :=
  match lev with
  | to_event lev_e => Some lev_e
  | to_iocp _ => None
  end.

(** [EVUTIL_UPCAST(lev, struct evconnlistener_iocp, base)]. *)
Definition upcast_iocp (lev : listener_ptr) : option evconnlistener_iocp :=
  match lev with
  | to_iocp lev_iocp => Some lev_iocp
  | to_event _ => None
  end.

(** Reading a struct through a pointer into a struct of the other type
    has no meaning in C; such a run has no result. *)
Definition undefined {A} : M A := fun _ => None.


Module Handle.
Section Dispatch.
Context {P : Platform}.

Definition event_listener_enable (lev : listener_ptr) : M Z :=
  match upcast_event lev with
  | Some lev_e => call (c_event_add (lev_ptr lev_e))
  | None => undefined
  end.

Definition event_listener_disable (lev : listener_ptr) : M Z :=
  match upcast_event lev with
  | Some lev_e => call (c_event_del (lev_ptr lev_e))
  | None => undefined
  end.

Definition event_listener_destroy (lev : listener_ptr) : M unit :=
  match upcast_event lev with
  | Some lev_e =>
      _ <- call (c_event_del (lev_ptr lev_e));;
      if has_flag (flags (deref lev)) LEV_OPT_CLOSE_ON_FREE
      then _ <- call (c_close (event_get_fd (listener lev_e)));; ret tt
      else ret tt
  | None => undefined
  end.

Definition event_listener_getfd (lev : listener_ptr) : M Z :=
  match upcast_event lev with
  | Some lev_e => ret (event_get_fd (listener lev_e))
  | None => undefined
  end.

Definition iocp_listener_enable (lev : listener_ptr) : M Z := ret 0.

Definition iocp_listener_disable (lev : listener_ptr) : M Z := ret 0.

Definition iocp_listener_destroy (lev : listener_ptr) : M unit := ret tt.

Definition iocp_listener_getfd (lev : listener_ptr) : M Z :=
  match upcast_iocp lev with
  | Some lev_iocp => ret (iocp_fd lev_iocp)
  | None => undefined
  end.

Definition evconnlistener_free (lev : listener_ptr) : M unit :=
  match ops (deref lev) with
  | evconnlistener_event_ops => event_listener_destroy lev
  | evconnlistener_iocp_ops => iocp_listener_destroy lev
  end;;;
  call_void (c_mm_free (address_of lev)).

Definition evconnlistener_enable (lev : listener_ptr) : M Z :=
  match ops (deref lev) with
  | evconnlistener_event_ops => event_listener_enable lev
  | evconnlistener_iocp_ops => iocp_listener_enable lev
  end.

Definition evconnlistener_disable (lev : listener_ptr) : M Z :=
  match ops (deref lev) with
  | evconnlistener_event_ops => event_listener_disable lev
  | evconnlistener_iocp_ops => iocp_listener_disable lev
  end.


Definition evconnlistener_get_fd (lev : listener_ptr) : M Z :=
  match ops (deref lev) with
  | evconnlistener_event_ops => event_listener_getfd lev
  | evconnlistener_iocp_ops => iocp_listener_getfd lev
  end.

End Dispatch.
End Handle.

(** ** The history of the completion backend's accept cycle *)

(** What [start_accepting] does to a new socket before it associates it
    with the port: the [socket] call that returned [s_], the
    [SO_UPDATE_ACCEPT_CONTEXT] option, and the non-blocking call unless
    sockets are left blocking. *)
Definition socket_setup {P : Platform} (a : accepting_socket) (s_ r1 r2 : Z)
  : list Event :=
  [ (c_socket AF_INET SOCK_STREAM 0, s_);
    (c_setsockopt s_ SOL_SOCKET SO_UPDATE_ACCEPT_CONTEXT
       (iocp_fd (as_lev a)) sizeof_pointer, r1) ]
  ++ (if has_flag (flags (iocp_base (as_lev a))) LEV_OPT_LEAVE_SOCKETS_BLOCKING
      then []
      else [(c_make_socket_nonblocking s_, r2)]).

(** The [AcceptEx] call that posts an accept for slot [a] on socket
    [s_]. *)
Definition post_accept {P : Platform} (a : accepting_socket) (s_ : Z) : Call :=
  c_AcceptEx (iocp_fd (as_lev a)) s_ (as_ptr a) 0
    (Z.quot (buflen a) 2) (Z.quot (buflen a) 2).

(** The callback invocation by which [accepted_socket_cb] delivers the
    connection of slot [a]. *)
Definition completion_delivery {P : Platform} (a : accepting_socket) : Call :=
  let remote := snd (GetAcceptExSockaddrs (addrbuf a) 0
                       (Z.quot (buflen a) 2) (Z.quot (buflen a) 2)) in
  c_user_cb (cb (iocp_base (as_lev a))) (iocp_ptr (as_lev a)) INVALID_SOCKET
    (fst remote) (snd remote) (user_data (iocp_base (as_lev a))).

(** [start_history a r a' es]: a run of [start_accepting] on slot [a]
    that returns [r] and leaves the slot as [a'] adds the calls [es] to
    the history.  [accepted_history a a' es]: the same for
    [accepted_socket_cb]. *)
Inductive start_history {P : Platform}
  : accepting_socket -> Z -> accepting_socket -> list Event -> Prop :=
| start_no_socket a s_ :
    s_ = INVALID_SOCKET ->
    start_history a (-1) a [(c_socket AF_INET SOCK_STREAM 0, s_)]
| start_no_port a s_ r1 r2 r3 :
    s_ <> INVALID_SOCKET ->
    r3 < 0 ->
    start_history a (-1) a
      (socket_setup a s_ r1 r2
       ++ [(c_event_iocp_port_associate (port (as_lev a)) s_ 1, r3)])
| start_posted a s_ r1 r2 r3 err :
    s_ <> INVALID_SOCKET ->
    0 <= r3 ->
    start_history a (if err =? ERROR_IO_PENDING then 0 else -1) (set_s a s_)
      (socket_setup a s_ r1 r2
       ++ [ (c_event_iocp_port_associate (port (as_lev a)) s_ 1, r3);
            (post_accept a s_, 0);
            (c_WSAGetLastError, err) ])
| start_completed a s_ r1 r2 r3 ok buf a' es :
    s_ <> INVALID_SOCKET ->
    0 <= r3 ->
    ok <> 0 ->
    accepted_history (set_addrbuf (set_s a s_) buf) a' es ->
    start_history a 0 a'
      (socket_setup a s_ r1 r2
       ++ [ (c_event_iocp_port_associate (port (as_lev a)) s_ 1, r3);
            (post_accept a s_, ok) ]
       ++ es)
with accepted_history {P : Platform}
  : accepting_socket -> accepting_socket -> list Event -> Prop :=
| accepted_rearm a r a' es :
    start_history (set_s a INVALID_SOCKET) r a' es ->
    accepted_history a a' ((completion_delivery a, 0) :: es).

Scheme start_history_ind2 := Minimality for start_history Sort Prop
with accepted_history_ind2 := Minimality for accepted_history Sort Prop.

Combined Scheme accept_cycle_ind from start_history_ind2, accepted_history_ind2.

(** ** The history of the completion backend's constructor *)

(** The [listen] call the two raw constructors start with, given what it
    returned; none for a zero backlog. *)
Definition listened (fd backlog r : Z) : list Event :=
  if backlog >? 0 then [(c_listen fd backlog, r)]
  else if backlog <? 0 then [(c_listen fd 128, r)]
  else [].

(** [sizeof] of the socket address of a family [new_accepting_socket]
    knows. *)
Definition addrlen_of {P : Platform} (family : Z) : Z :=
  if family =? AF_INET then sizeof_sockaddr_in else sizeof_sockaddr_in6.

(** The handle [evconnlistener_new_async] fills in at address [p], with
    its slot array at [arr]. *)
Definition async_handle (cb_ ptr flags_ fd p arr : Z) : evconnlistener_iocp :=
  mk_evconnlistener_iocp p
    (mk_evconnlistener evconnlistener_iocp_ops cb_ ptr flags_) fd 0 1 arr.

(** The slot [new_accepting_socket] fills in at address [q]. *)
Definition fresh_slot {P : Platform} (lev : evconnlistener_iocp)
    (family q : Z) : accepting_socket :=
  mk_accepting_socket q INVALID_SOCKET lev ((addrlen_of family + 16) * 2) [].

(** [new_async_history cb_ ptr flags_ backlog fd family res es]: a run of
    [evconnlistener_new_async] on a socket of this family that returns
    [res] adds the calls [es] to the history.  One case for each place
    the function returns from. *)
Inductive new_async_history {P : Platform}
    (cb_ ptr flags_ backlog fd family : Z)
  : option evconnlistener_iocp -> list Event -> Prop :=
| async_listen_failed r :
    backlog <> 0 -> r < 0 ->
    new_async_history cb_ ptr flags_ backlog fd family None
      (listened fd backlog r)
| async_no_name r0 rg :
    0 <= r0 -> rg <> 0 ->
    new_async_history cb_ ptr flags_ backlog fd family None
      (listened fd backlog r0
       ++ [ (c_getsockname fd, rg);
            (c_event_sock_warn fd "getsockname", 0) ])
| async_no_handle r0 :
    0 <= r0 ->
    new_async_history cb_ ptr flags_ backlog fd family None
      (listened fd backlog r0
       ++ [ (c_getsockname fd, 0);
            (c_mm_calloc 1 sizeof_evconnlistener_event, 0);
            (c_event_warn "calloc", 0) ])
| async_no_array r0 p rc :
    0 <= r0 -> p <> 0 ->
    new_async_history cb_ ptr flags_ backlog fd family None
      (listened fd backlog r0
       ++ [ (c_getsockname fd, 0);
            (c_mm_calloc 1 sizeof_evconnlistener_event, p);
            (c_mm_calloc 1 sizeof_pointer, 0);
            (c_event_warn "calloc", 0);
            (c_mm_free p, 0);
            (c_close fd, rc) ])
| async_no_slot_family r0 p arr rc :
    0 <= r0 -> p <> 0 -> arr <> 0 ->
    family <> AF_INET -> family <> AF_INET6 ->
    new_async_history cb_ ptr flags_ backlog fd family None
      (listened fd backlog r0
       ++ [ (c_getsockname fd, 0);
            (c_mm_calloc 1 sizeof_evconnlistener_event, p);
            (c_mm_calloc 1 sizeof_pointer, arr);
            (c_event_warnx "Couldn't create accepting socket", 0);
            (c_mm_free arr, 0);
            (c_mm_free p, 0);
            (c_close fd, rc) ])
| async_no_slot_memory r0 p arr rc :
    0 <= r0 -> p <> 0 -> arr <> 0 ->
    family = AF_INET \/ family = AF_INET6 ->
    new_async_history cb_ ptr flags_ backlog fd family None
      (listened fd backlog r0
       ++ [ (c_getsockname fd, 0);
            (c_mm_calloc 1 sizeof_evconnlistener_event, p);
            (c_mm_calloc 1 sizeof_pointer, arr);
            (c_mm_calloc 1
               (sizeof_accepting_socket - 1 + (addrlen_of family + 16) * 2),
             0);
            (c_event_warnx "Couldn't create accepting socket", 0);
            (c_mm_free arr, 0);
            (c_mm_free p, 0);
            (c_close fd, rc) ])
| async_started r0 p arr q r a' cycle :
    0 <= r0 -> p <> 0 -> arr <> 0 -> q <> 0 ->
    family = AF_INET \/ family = AF_INET6 ->
    start_history
      (fresh_slot (async_handle cb_ ptr flags_ fd p arr) family q) r a' cycle ->
    new_async_history cb_ ptr flags_ backlog fd family
      (if r =? 0 then None else Some (async_handle cb_ ptr flags_ fd p arr))
      (listened fd backlog r0
       ++ [ (c_getsockname fd, 0);
            (c_mm_calloc 1 sizeof_evconnlistener_event, p);
            (c_mm_calloc 1 sizeof_pointer, arr);
            (c_mm_calloc 1
               (sizeof_accepting_socket - 1 + (addrlen_of family + 16) * 2),
             q);
            (c_event_overlapped_init q fn_accepted_socket_cb, 0) ]
       ++ cycle
       ++ (if r =? 0
           then [(c_event_warnx "Couldn't start accepting on socket", 0)]
           else [])).

(** ** More readings of a history *)

(** The blocks [mm_calloc] handed out, in order (NULL results left
    out). *)
Definition allocated_blocks (es : list Event) : list Z :=
  flat_map (fun e => match e with
                     | (c_mm_calloc _ _, p) => if p =? 0 then [] else [p]
                     | _ => []
                     end) es.

(** The [socket] calls, as (family, type, protocol). *)
Definition socket_calls (es : list Event) : list (Z * Z * Z) :=
  flat_map (fun e => match fst e with
                     | c_socket family type protocol =>
                         [(family, type, protocol)]
                     | _ => []
                     end) es.

(** The [AcceptEx] calls, as (receive length, local address length,
    remote address length). *)
Definition acceptex_lengths (es : list Event) : list (Z * Z * Z) :=
  flat_map (fun e => match fst e with
                     | c_AcceptEx _ _ _ rcvlen local_len remote_len =>
                         [(rcvlen, local_len, remote_len)]
                     | _ => []
                     end) es.

(** What every call of the accept cycle of slot [a] looks like. *)
Definition cycle_event {P : Platform} (a : accepting_socket) (e : Event) : Prop :=
  match e with
  | (c_socket family type protocol, _) =>
      family = AF_INET /\ type = SOCK_STREAM /\ protocol = 0
  | (c_setsockopt _ level optname optval optlen, _) =>
      level = SOL_SOCKET /\ optname = SO_UPDATE_ACCEPT_CONTEXT /\
      optval = iocp_fd (as_lev a) /\ optlen = sizeof_pointer
  | (c_make_socket_nonblocking _, _) =>
      has_flag (flags (iocp_base (as_lev a))) LEV_OPT_LEAVE_SOCKETS_BLOCKING
      = false
  | (c_event_iocp_port_associate p _ key, _) =>
      p = port (as_lev a) /\ key = 1
  | (c_AcceptEx listen_fd _ buf rcvlen local_len remote_len, _) =>
      listen_fd = iocp_fd (as_lev a) /\ buf = as_ptr a /\ rcvlen = 0 /\
      local_len = Z.quot (buflen a) 2 /\ remote_len = Z.quot (buflen a) 2
  | (c_WSAGetLastError, _) => True
  | (c_user_cb fn lev fd _ _ arg, _) =>
      fn = cb (iocp_base (as_lev a)) /\ lev = iocp_ptr (as_lev a) /\
      fd = INVALID_SOCKET /\ arg = user_data (iocp_base (as_lev a))
  | _ => False
  end.

(** The sockets of a history that [socket] really created. *)
Definition valid_sockets {P : Platform} (es : list Event) : list Z :=
  filter (fun s_ => negb (s_ =? INVALID_SOCKET)) (created_fds es).

(** A WIN32 world in which descriptors are bound to IPv6 addresses
    (family 23) and every step of the completion backend succeeds. *)
Definition inet6_socket_world : World :=
  mk_World [] [] 0 (fun _ => mk_sockaddr 23 []) (fun _ => [])
    (fun _ => iocp_all_succeed).

(** A world in which two connections are pending, then an [accept] error
    24, then two more connections. *)
Definition interrupted_backlog : World :=
  world_of (map accept_conn two_conns
            ++ accept_fail 24 :: map accept_conn two_conns ++ [])
    all_succeed.

(** ** Proof tools *)

Lemma app_single_assoc {A} (l : list A) (x : A) (es : list A) :
  (l ++ [x]) ++ es = l ++ x :: es.
Proof. now rewrite <- app_assoc. Qed.

(** Unfold the monad and the calls, then split on every test the code
    makes. *)
Ltac unfold_M :=
  cbv [bind ret call call_void log_event out_of_fuel event_assign
       getsockname evutil_socket_geterror event_get_fd];
  cbn [trace pending sock_errno sockname acceptex_data reply fst snd].

Ltac split_tests :=
  repeat match goal with
         | |- context [if ?c then _ else _] => destruct c eqn:?
         | |- context [match ?o with Some _ => _ | None => _ end] =>
             destruct o eqn:?
         end.

Ltac tidy_trace :=
  cbn [trace]; rewrite ?app_single_assoc; cbn [app].

Lemma returns_exists {A} (m : option (A * World)) Q :
  returns m Q -> exists a w', m = Some (a, w') /\ Q a w'.
Proof. destruct m as [[a w']|]; cbn; [eauto | contradiction]. Qed.

Lemma returns_weaken {A} (m : option (A * World)) (Q Q' : A -> World -> Prop) :
  returns m Q -> (forall a w', Q a w' -> Q' a w') -> returns m Q'.
Proof. destruct m as [[a w']|]; cbn; auto. Qed.

Lemma returns_bind {A B} (m : M A) (f : A -> M B) w Q1 Q :
  returns (m w) Q1 ->
  (forall a w1, Q1 a w1 -> returns (f a w1) Q) ->
  returns (bind m f w) Q.
Proof. unfold bind. destruct (m w) as [[a w1]|]; cbn; auto; contradiction. Qed.

Lemma bind_call {A} c (k : Z -> M A) w :
  bind (call c) k w =
  k (reply w (trace w) c) (log_event (c, reply w (trace w) c) w).
Proof. reflexivity. Qed.

Lemma bind_call_void {A} c (k : unit -> M A) w :
  bind (call_void c) k w = k tt (log_event (c, 0) w).
Proof. reflexivity. Qed.

Lemma bind_ret {A B} (a : A) (k : A -> M B) w : bind (ret a) k w = k a w.
Proof. reflexivity. Qed.

Lemma bind_bind {A B C} (m : M A) (f : A -> M B) (g : B -> M C) w :
  bind (bind m f) g w = bind m (fun a => bind (f a) g) w.
Proof. unfold bind. now destruct (m w) as [[a w1]|]. Qed.

Lemma on_return_bind {A B} (m : M A) (f : A -> M B) w Q1 Q :
  on_return (m w) Q1 ->
  (forall a w1, Q1 a w1 -> on_return (f a w1) Q) ->
  on_return (bind m f w) Q.
Proof. unfold bind. destruct (m w) as [[a w1]|]; cbn; auto. Qed.

Lemma on_return_weaken {A} (m : option (A * World)) (Q Q' : A -> World -> Prop) :
  on_return m Q -> (forall a w', Q a w' -> Q' a w') -> on_return m Q'.
Proof. destruct m as [[a w']|]; cbn; auto. Qed.

Lemma on_return_eq {A} (m : option (A * World)) Q a w' :
  on_return m Q -> m = Some (a, w') -> Q a w'.
Proof. now intros H ->. Qed.

(** Run the code of a goal [returns (code w) Q] or [on_return (code w) Q]
    one call at a time: each call's result becomes a variable, each test
    of the code a case. *)
Ltac exec_step :=
  first
    [ rewrite bind_call;
      match goal with
      | |- context [reply ?w ?t ?c] => generalize (reply w t c); intro
      end
    | rewrite bind_call_void
    | rewrite bind_ret
    | rewrite bind_bind
    | match goal with
      | |- returns ((if ?c then _ else _) _) _ => destruct c eqn:?
      | |- returns ((match ?o with Some _ => _ | None => _ end) _) _ =>
          destruct o eqn:?
      | |- returns (bind (if ?c then _ else _) _ _) _ => destruct c eqn:?
      | |- returns (ret _ _) _ => unfold ret, returns
      | |- on_return ((if ?c then _ else _) _) _ => destruct c eqn:?
      | |- on_return ((match ?o with Some _ => _ | None => _ end) _) _ =>
          destruct o eqn:?
      | |- on_return (bind (if ?c then _ else _) _ _) _ => destruct c eqn:?
      | |- on_return (ret _ _) _ => unfold ret, on_return
      end ].

Ltac exec := repeat exec_step.

Ltac trace_of_run :=
  cbn [trace log_event]; rewrite ?app_single_assoc; cbn [app].

Section Readiness.
Context {P : Platform}.

Lemma registered_snoc ev tr c r :
  registered ev (tr ++ [(c, r)]) =
  match c with
  | c_event_add x => if (x =? ev) && (r =? 0) then true else registered ev tr
  | c_event_del x => if (x =? ev) && (r =? 0) then false else registered ev tr
  | _ => registered ev tr
  end.
Proof.
  unfold registered. rewrite fold_left_app. cbn [fold_left].
  destruct c; reflexivity.
Qed.

(** Every run of [evconnlistener_new]: it returns, it calls [listen] as
    the backlog says, and a handle it returns has been filled in and
    handed to [event_add] last. *)
Lemma evconnlistener_new_spec b cb_ ptr fl backlog fd w :
  exists r w' es,
    evconnlistener_new b cb_ ptr fl backlog fd w = Some (r, w') /\
    trace w' = trace w ++ es /\
    listen_calls es =
      (if backlog >? 0 then [(fd, backlog)]
       else if backlog <? 0 then [(fd, 128)] else []) /\
    match r with
    | None => True
    | Some lev =>
        base lev = mk_evconnlistener evconnlistener_event_ops cb_ ptr fl /\
        listener lev = mk_event b fd (Z.lor EV_READ EV_PERSIST)
                         fn_listener_read_cb (lev_ptr lev) /\
        exists es0 ra, es = es0 ++ [(c_event_add (lev_ptr lev), ra)]
    end.
Proof.
  unfold evconnlistener_new, evconnlistener_enable, event_listener_enable.
  unfold_M. cbn [base ops lev_ptr].
  split_tests; do 3 eexists; (split; [reflexivity|]); tidy_trace;
    (split; [reflexivity|]); (split; [reflexivity|]); auto;
    cbn [base listener lev_ptr]; repeat split;
    first [ eexists [_; _; _], _; reflexivity
          | eexists [_; _], _; reflexivity ].
Qed.

(** C5: for every backlog argument, [evconnlistener_new] returns having
    called [listen] exactly once with that backlog when it is positive,
    exactly once with 128 when it is negative, and not at all when it is
    zero; [evconnlistener_new_bind] with a zero backlog returns NULL and
    leaves the world as it found it (no call is made). *)
Theorem backlog_translation b cb_ ptr fl backlog fd sa socklen w :
  (exists r w' es,
      evconnlistener_new b cb_ ptr fl backlog fd w = Some (r, w') /\
      trace w' = trace w ++ es /\
      listen_calls es =
        (if backlog >? 0 then [(fd, backlog)]
         else if backlog <? 0 then [(fd, 128)] else [])) /\
  evconnlistener_new_bind b cb_ ptr fl 0 sa socklen w = Some (None, w).
Proof.
  split; [|reflexivity].
  destruct (evconnlistener_new_spec b cb_ ptr fl backlog fd w)
    as (r & w' & es & Hrun & Htr & Hl & _).
  now exists r, w', es.
Qed.

(** C9, as amended: whenever [evconnlistener_new] returns a handle, the
    last call it made is [event_add] on the handle's event, which
    [event_assign] set up for read readiness, persistent, on [fd] with
    [listener_read_cb]; the result of [event_add] is not looked at, and
    the handle is registered (enabled) whenever that call returned 0. *)
Theorem evconnlistener_new_arms b cb_ ptr fl backlog fd w lev w' :
  evconnlistener_new b cb_ ptr fl backlog fd w = Some (Some lev, w') ->
  exists es ra,
    trace w' = trace w ++ es ++ [(c_event_add (lev_ptr lev), ra)] /\
    listener lev = mk_event b fd (Z.lor EV_READ EV_PERSIST)
                     fn_listener_read_cb (lev_ptr lev) /\
    (ra = 0 -> registered (lev_ptr lev) (trace w') = true).
Proof.
  intros Hrun.
  destruct (evconnlistener_new_spec b cb_ ptr fl backlog fd w)
    as (r & w1 & es & Hrun' & Htr & _ & Hlev).
  rewrite Hrun in Hrun'. injection Hrun' as <- <-.
  destruct Hlev as (_ & Hev & es0 & ra & ->).
  exists es0, ra. repeat split; auto.
  intros ->. rewrite Htr, app_assoc, registered_snoc.
  now rewrite Z.eqb_refl.
Qed.

(** C8: a handle that [evconnlistener_new] returned for descriptor [fd]
    with flags [fl] is destroyed by exactly these calls, in this order:
    [event_del] on its event, then [close] on [fd] if and only if
    [LEV_OPT_CLOSE_ON_FREE] is set in [fl], then [mm_free] on the handle.
    Without the flag no descriptor is closed. *)
Theorem evconnlistener_free_order b cb_ ptr fl backlog fd w0 w1 lev w :
  evconnlistener_new b cb_ ptr fl backlog fd w0 = Some (Some lev, w1) ->
  exists w' es,
    evconnlistener_free lev w = Some (tt, w') /\
    trace w' = trace w ++ es /\
    map fst es =
      c_event_del (lev_ptr lev)
      :: (if has_flag fl LEV_OPT_CLOSE_ON_FREE then [c_close fd] else [])
      ++ [c_mm_free (lev_ptr lev)] /\
    closed_fds es = (if has_flag fl LEV_OPT_CLOSE_ON_FREE then [fd] else []).
Proof.
  intros Hrun.
  destruct (evconnlistener_new_spec b cb_ ptr fl backlog fd w0)
    as (r & w2 & es & Hrun' & _ & _ & Hlev).
  rewrite Hrun in Hrun'. injection Hrun' as <- <-.
  destruct Hlev as (Hbase & Hev & _).
  unfold evconnlistener_free, event_listener_destroy.
  rewrite Hbase, Hev. cbn [ops flags]. unfold_M. cbn [ev_fd].
  destruct (has_flag fl LEV_OPT_CLOSE_ON_FREE);
    do 2 eexists; (split; [reflexivity|]); tidy_trace;
    (split; [reflexivity|]); split; reflexivity.
Qed.

End Readiness.

(** C9 as stated fails: with a zero backlog and a reactor that refuses
    the registration, [evconnlistener_new] still returns a handle, and
    its event is not registered. *)
Lemma evconnlistener_new_returns_unregistered_handle :
  exists lev w',
    @evconnlistener_new linux 0 0 0 0 0 7 (world_of [] event_add_fails)
      = Some (Some lev, w') /\
    registered (lev_ptr lev) (trace w') = false.
Proof. do 2 eexists. split; [lazy; reflexivity | reflexivity]. Qed.

Lemma evconnlistener_new_arms_witness :
  exists lev w',
    @evconnlistener_new linux 0 0 0 0 16 7 (world_of [] all_succeed)
      = Some (Some lev, w') /\
    exists es ra,
      trace w' = trace (world_of [] all_succeed) ++ es
                 ++ [(c_event_add (lev_ptr lev), ra)] /\
      listener lev = mk_event 0 7 (Z.lor (@EV_READ linux) (@EV_PERSIST linux))
                       fn_listener_read_cb (lev_ptr lev) /\
      (ra = 0 -> registered (lev_ptr lev) (trace w') = true).
Proof.
  do 2 eexists. split; [lazy; reflexivity|].
  apply (@evconnlistener_new_arms linux 0 0 0 0 16 7). reflexivity.
Defined.

Lemma evconnlistener_free_order_witness :
  exists lev w1,
    @evconnlistener_new linux 0 0 0 2 16 7 (world_of [] all_succeed)
      = Some (Some lev, w1) /\
    exists w' es,
      @evconnlistener_free linux lev w1 = Some (tt, w') /\
      trace w' = trace w1 ++ es /\
      map fst es =
        c_event_del (lev_ptr lev)
        :: (if has_flag 2 (@LEV_OPT_CLOSE_ON_FREE linux) then [c_close 7] else [])
        ++ [c_mm_free (lev_ptr lev)] /\
      closed_fds es = (if has_flag 2 (@LEV_OPT_CLOSE_ON_FREE linux) then [7] else []).
Proof.
  do 2 eexists. split; [lazy; reflexivity|].
  eapply (@evconnlistener_free_order linux 0 0 0 2 16 7 (world_of [] all_succeed)).
  lazy; reflexivity.
Defined.

(** ** The accept loop of the readiness backend *)

Section Drain.
Context {P : Platform}.
Variables (lev : evconnlistener_event) (fd : Z).

Lemma listener_read_cb_loop_spec cs :
  forall rest fuel w,
    pending w = map accept_conn cs ++ rest ->
    Forall (fun c => 0 <= conn_fd c) cs ->
    next_accept_fails rest = true ->
    (List.length cs < fuel)%nat ->
    exists w' es,
      listener_read_cb_loop fuel fd lev w = Some (tt, w') /\
      trace w' = trace w ++ es /\
      drain_history lev fd cs es /\
      pending w' = tl rest /\
      sock_errno w' = next_accept_error rest.
Proof.
  induction cs as [|c cs IH]; intros rest fuel w Hq Hfd Hfail Hfuel;
    (destruct fuel as [|fuel]; [cbn in Hfuel; lia|]);
    cbn [listener_read_cb_loop]; unfold bind at 1, accept; rewrite Hq.
  - cbn [map app].
    destruct rest as [|[c|err] q]; [|discriminate|];
      cbn [Z.ltb Z.compare]; unfold_M;
      do 2 eexists; repeat split; constructor.
  - cbn [map app]. inversion Hfd as [|? ? Hc Hcs]; subst.
    destruct (Z.ltb_spec (conn_fd c) 0) as [|_]; [lia|].
    destruct (has_flag (flags (base lev)) LEV_OPT_LEAVE_SOCKETS_BLOCKING)
      eqn:Hflag; cbn [negb]; unfold_M.
    + edestruct (IH rest fuel) as (w' & es & Hrun & Htr & Hd & Hp & He);
        [| exact Hcs | exact Hfail | cbn in Hfuel; lia |].
      2:{ rewrite Hrun. exists w'. eexists. split; [reflexivity|].
          rewrite Htr. tidy_trace.
          split; [reflexivity|]. split; [|now split].
          now apply drain_blocking. }
      reflexivity.
    + edestruct (IH rest fuel) as (w' & es & Hrun & Htr & Hd & Hp & He);
        [| exact Hcs | exact Hfail | cbn in Hfuel; lia |].
      2:{ rewrite Hrun. exists w'. eexists. split; [reflexivity|].
          rewrite Htr. tidy_trace.
          split; [reflexivity|]. split; [|now split].
          now apply drain_nonblocking. }
      reflexivity.
Qed.

Lemma drain_user_cb_calls cs es :
  drain_history lev fd cs es -> user_cb_calls es = map (delivery lev) cs.
Proof.
  induction 1 as [|c cs es _ _ IH|c cs es r _ _ IH];
    [reflexivity| |]; cbn [map]; rewrite <- IH; reflexivity.
Qed.

Lemma drain_accept_results cs es :
  drain_history lev fd cs es -> accept_results es = map conn_fd cs ++ [-1].
Proof.
  induction 1 as [|c cs es _ _ IH|c cs es r _ _ IH];
    [reflexivity| |]; cbn [map app]; rewrite <- IH; reflexivity.
Qed.

Lemma drain_nonblocking_calls cs es :
  drain_history lev fd cs es ->
  nonblocking_calls es =
    if has_flag (flags (base lev)) LEV_OPT_LEAVE_SOCKETS_BLOCKING
    then [] else map conn_fd cs.
Proof.
  induction 1 as [|c cs es Hf _ IH|c cs es r Hf _ IH].
  - now destruct (has_flag _ _).
  - rewrite Hf in *. rewrite <- IH. reflexivity.
  - rewrite Hf in *. cbn [map]. rewrite <- IH. reflexivity.
Qed.

Lemma drain_quiet cs es :
  drain_history lev fd cs es ->
  log_calls es = [] /\ teardown_calls es = [] /\ registration_calls es = [].
Proof. induction 1; auto. Qed.

Lemma cons_eq_app {A} (x y : A) l pre post :
  x :: l = pre ++ y :: post ->
  (pre = [] /\ x = y /\ l = post) \/
  (exists pre1, pre = x :: pre1 /\ l = pre1 ++ y :: post).
Proof.
  destruct pre as [|z pre1]; cbn; intros H; injection H as -> ->; eauto.
Qed.

Lemma user_cb_calls_app es1 es2 :
  user_cb_calls (es1 ++ es2) = user_cb_calls es1 ++ user_cb_calls es2.
Proof. apply flat_map_app. Qed.

Lemma accept_results_app es1 es2 :
  accept_results (es1 ++ es2) = accept_results es1 ++ accept_results es2.
Proof. apply flat_map_app. Qed.

Lemma log_calls_app es1 es2 :
  log_calls (es1 ++ es2) = log_calls es1 ++ log_calls es2.
Proof. apply flat_map_app. Qed.

Lemma teardown_calls_app es1 es2 :
  teardown_calls (es1 ++ es2) = teardown_calls es1 ++ teardown_calls es2.
Proof. apply flat_map_app. Qed.

Lemma registration_calls_app es1 es2 :
  registration_calls (es1 ++ es2) =
  registration_calls es1 ++ registration_calls es2.
Proof. apply flat_map_app. Qed.

Lemma nonblocking_calls_app es1 es2 :
  nonblocking_calls (es1 ++ es2) =
  nonblocking_calls es1 ++ nonblocking_calls es2.
Proof. apply flat_map_app. Qed.

(** In the history of a drain, followed by anything that is not a
    callback, the event before each callback is the [accept] that
    returned its descriptor (sockets left blocking) ... *)
Lemma drain_cb_after_accept cs es tail :
  drain_history lev fd cs es ->
  user_cb_calls tail = [] ->
  has_flag (flags (base lev)) LEV_OPT_LEAVE_SOCKETS_BLOCKING = true ->
  forall pre post fn l x sa len arg r0,
    es ++ tail = pre ++ (c_user_cb fn l x sa len arg, r0) :: post ->
    exists pre', pre = pre' ++ [(c_accept fd, x)].
Proof.
  intros Hd Htail Hflag.
  induction Hd as [|c cs es _ _ IH|c cs es r Hf _ _];
    [| |congruence]; intros pre post fn l x sa len arg r0 Heq;
    unfold delivery in Heq; cbn in Heq.
  - apply cons_eq_app in Heq as [(_ & [=] & _)|(pre1 & -> & Heq)].
    rewrite Heq, user_cb_calls_app in Htail.
    apply app_eq_nil in Htail as [_ [=]].
  - apply cons_eq_app in Heq as [(_ & [=] & _)|(pre1 & -> & Heq)].
    apply cons_eq_app in Heq as [(-> & [= <- <- <- <- <- <- <-] & _)
                                |(pre2 & -> & Heq)].
    + now exists [].
    + destruct (IH _ _ _ _ _ _ _ _ _ Heq) as (pre' & ->).
      now exists ((c_accept fd, conn_fd c) :: (delivery lev c, 0) :: pre').
Qed.

(** ... or the call that sets that descriptor non-blocking, itself right
    after the [accept] that returned it. *)
Lemma drain_cb_after_nonblocking cs es tail :
  drain_history lev fd cs es ->
  user_cb_calls tail = [] ->
  has_flag (flags (base lev)) LEV_OPT_LEAVE_SOCKETS_BLOCKING = false ->
  forall pre post fn l x sa len arg r0,
    es ++ tail = pre ++ (c_user_cb fn l x sa len arg, r0) :: post ->
    exists pre' r,
      pre = pre' ++ [(c_accept fd, x); (c_make_socket_nonblocking x, r)].
Proof.
  intros Hd Htail Hflag.
  induction Hd as [|c cs es Hf _ _|c cs es r _ _ IH];
    [|congruence|]; intros pre post fn l x sa len arg r0 Heq;
    unfold delivery in Heq; cbn in Heq.
  - apply cons_eq_app in Heq as [(_ & [=] & _)|(pre1 & -> & Heq)].
    rewrite Heq, user_cb_calls_app in Htail.
    apply app_eq_nil in Htail as [_ [=]].
  - apply cons_eq_app in Heq as [(_ & [=] & _)|(pre1 & -> & Heq)].
    apply cons_eq_app in Heq as [(_ & [=] & _)|(pre2 & -> & Heq)].
    apply cons_eq_app in Heq as [(-> & [= <- <- <- <- <- <- <-] & _)
                                |(pre3 & -> & Heq)].
    + now exists [], r.
    + destruct (IH _ _ _ _ _ _ _ _ _ Heq) as (pre' & r' & ->).
      now exists ((c_accept fd, conn_fd c)
                  :: (c_make_socket_nonblocking (conn_fd c), r)
                  :: (delivery lev c, 0) :: pre'), r'.
Qed.

Lemma registered_unchanged ev es : forall tr,
  registration_calls es = [] -> registered ev (tr ++ es) = registered ev tr.
Proof.
  induction es as [|[c r] es IH]; intros tr H.
  - now rewrite app_nil_r.
  - cbn in H. apply app_eq_nil in H as [Hc Hes].
    rewrite <- app_single_assoc, IH by exact Hes. rewrite registered_snoc.
    destruct c; try reflexivity; discriminate.
Qed.

(** One run of [listener_read_cb] on a world whose next [accept] calls
    yield the connections [cs] and then fail. *)
Lemma listener_read_cb_spec fuel what cs rest w :
  pending w = map accept_conn cs ++ rest ->
  Forall (fun c => 0 <= conn_fd c) cs ->
  next_accept_fails rest = true ->
  (List.length cs < fuel)%nat ->
  exists w' es,
    listener_read_cb fuel fd what lev w = Some (tt, w') /\
    trace w' = trace w ++ es ++ accept_warning fd (next_accept_error rest) /\
    drain_history lev fd cs es /\
    pending w' = tl rest.
Proof.
  intros Hq Hfd Hfail Hfuel.
  destruct (listener_read_cb_loop_spec cs rest fuel w Hq Hfd Hfail Hfuel)
    as (w1 & es & Hrun & Htr & Hd & Hp & He).
  unfold listener_read_cb, bind at 1. rewrite Hrun.
  unfold accept_warning. unfold_M. rewrite He.
  destruct (EVUTIL_ERR_ACCEPT_RETRIABLE _).
  - exists w1, es. rewrite app_nil_r. auto.
  - eexists. exists es. split; [reflexivity|]. cbn [trace pending].
    rewrite Htr, app_assoc. auto.
Qed.

Lemma accept_warning_views err :
  user_cb_calls (accept_warning fd err) = [] /\
  accept_results (accept_warning fd err) = [] /\
  teardown_calls (accept_warning fd err) = [] /\
  registration_calls (accept_warning fd err) = [] /\
  nonblocking_calls (accept_warning fd err) = [].
Proof.
  unfold accept_warning. destruct (EVUTIL_ERR_ACCEPT_RETRIABLE err); auto.
Qed.

(** C4: on a notification with the connections [cs] pending (the
    [accept] after them failing), [listener_read_cb] returns, given fuel
    for one round per connection and one more; by then it has invoked the
    user callback exactly once for each connection of [cs], in the order
    [accept] returned them, and its [accept] calls returned the
    descriptors of [cs] and then -1, the one failure being the last. *)
Theorem listener_read_cb_drains fuel what cs rest w :
  pending w = map accept_conn cs ++ rest ->
  Forall (fun c => 0 <= conn_fd c) cs ->
  next_accept_fails rest = true ->
  (List.length cs < fuel)%nat ->
  exists w' es,
    listener_read_cb fuel fd what lev w = Some (tt, w') /\
    trace w' = trace w ++ es /\
    user_cb_calls es = map (delivery lev) cs /\
    accept_results es = map conn_fd cs ++ [-1] /\
    pending w' = tl rest.
Proof.
  intros Hq Hfd Hfail Hfuel.
  destruct (listener_read_cb_spec fuel what cs rest w Hq Hfd Hfail Hfuel)
    as (w' & es & Hrun & Htr & Hd & Hp).
  destruct (accept_warning_views (next_accept_error rest))
    as (Hcb & Hacc & _).
  exists w', (es ++ accept_warning fd (next_accept_error rest)).
  repeat split; auto.
  - rewrite user_cb_calls_app, Hcb, app_nil_r.
    now apply drain_user_cb_calls.
  - rewrite accept_results_app, Hacc, app_nil_r.
    now apply drain_accept_results.
Qed.

(** C6: when the [accept] that ends the loop fails with error [err],
    [listener_read_cb] returns; it has logged nothing if
    [EVUTIL_ERR_ACCEPT_RETRIABLE err], and otherwise exactly the warning
    "Error from accept() call", as its last call.  In both cases the
    failing [accept] was the last one tried, and the run removed no
    registration, closed no descriptor and freed nothing: the listener is
    registered afterwards exactly if it was before. *)
Theorem accept_failure_classified fuel what cs rest w :
  pending w = map accept_conn cs ++ rest ->
  Forall (fun c => 0 <= conn_fd c) cs ->
  next_accept_fails rest = true ->
  (List.length cs < fuel)%nat ->
  exists w' es,
    listener_read_cb fuel fd what lev w = Some (tt, w') /\
    trace w' = trace w ++ es ++ accept_warning fd (next_accept_error rest) /\
    log_calls (es ++ accept_warning fd (next_accept_error rest)) =
      (if EVUTIL_ERR_ACCEPT_RETRIABLE (next_accept_error rest) then []
       else [c_event_sock_warn fd "Error from accept() call"]) /\
    accept_results es = map conn_fd cs ++ [-1] /\
    teardown_calls (es ++ accept_warning fd (next_accept_error rest)) = [] /\
    registration_calls (es ++ accept_warning fd (next_accept_error rest)) = [] /\
    registered (lev_ptr lev) (trace w') = registered (lev_ptr lev) (trace w).
Proof.
  intros Hq Hfd Hfail Hfuel.
  destruct (listener_read_cb_spec fuel what cs rest w Hq Hfd Hfail Hfuel)
    as (w' & es & Hrun & Htr & Hd & Hp).
  destruct (accept_warning_views (next_accept_error rest))
    as (_ & _ & Htd & Hreg & _).
  destruct (drain_quiet _ _ Hd) as (Hlog & Htd' & Hreg').
  assert (Hregs : registration_calls
                    (es ++ accept_warning fd (next_accept_error rest)) = []).
  { now rewrite registration_calls_app, Hreg, Hreg'. }
  exists w', es. repeat split; auto.
  - rewrite log_calls_app, Hlog. cbn [app].
    unfold accept_warning. now destruct (EVUTIL_ERR_ACCEPT_RETRIABLE _).
  - now apply drain_accept_results.
  - now rewrite teardown_calls_app, Htd, Htd'.
  - rewrite Htr. now apply registered_unchanged.
Qed.

(** C7: the run delivers every connection of [cs].  If
    [LEV_OPT_LEAVE_SOCKETS_BLOCKING] is unset in the handle's flags, then
    [evutil_make_socket_nonblocking] is called once on each accepted
    descriptor, and the two calls right before each callback are the
    [accept] that returned the descriptor and the call that sets this
    descriptor non-blocking (its result is not looked at).  If the flag
    is set, no descriptor is set non-blocking during the run, and the
    call right before each callback is the [accept] that returned its
    descriptor. *)
Theorem nonblocking_before_delivery fuel what cs rest w :
  pending w = map accept_conn cs ++ rest ->
  Forall (fun c => 0 <= conn_fd c) cs ->
  next_accept_fails rest = true ->
  (List.length cs < fuel)%nat ->
  exists w' es,
    listener_read_cb fuel fd what lev w = Some (tt, w') /\
    trace w' = trace w ++ es /\
    user_cb_calls es = map (delivery lev) cs /\
    if has_flag (flags (base lev)) LEV_OPT_LEAVE_SOCKETS_BLOCKING
    then
      nonblocking_calls es = [] /\
      forall pre post fn l x sa len arg r0,
        es = pre ++ (c_user_cb fn l x sa len arg, r0) :: post ->
        exists pre', pre = pre' ++ [(c_accept fd, x)]
    else
      nonblocking_calls es = map conn_fd cs /\
      forall pre post fn l x sa len arg r0,
        es = pre ++ (c_user_cb fn l x sa len arg, r0) :: post ->
        exists pre' r,
          pre = pre' ++ [(c_accept fd, x); (c_make_socket_nonblocking x, r)].
Proof.
  intros Hq Hfd Hfail Hfuel.
  destruct (listener_read_cb_spec fuel what cs rest w Hq Hfd Hfail Hfuel)
    as (w' & es & Hrun & Htr & Hd & Hp).
  destruct (accept_warning_views (next_accept_error rest))
    as (Hcb & _ & _ & _ & Hnb).
  pose proof (drain_nonblocking_calls _ _ Hd) as Hnbs.
  exists w', (es ++ accept_warning fd (next_accept_error rest)).
  split; [exact Hrun|]. split; [exact Htr|]. split.
  { rewrite user_cb_calls_app, Hcb, app_nil_r.
    now apply drain_user_cb_calls. }
  destruct (has_flag (flags (base lev)) LEV_OPT_LEAVE_SOCKETS_BLOCKING) eqn:Hf.
  - split.
    + now rewrite nonblocking_calls_app, Hnb, Hnbs.
    + now apply drain_cb_after_accept with (cs := cs).
  - split.
    + now rewrite nonblocking_calls_app, Hnb, Hnbs, app_nil_r.
    + now apply drain_cb_after_nonblocking with (cs := cs).
Qed.

End Drain.

Lemma listener_read_cb_drains_witness :
  exists w' es,
    @listener_read_cb linux 3 7 2 (@sample_lev linux 0) two_pending_then_error
      = Some (tt, w') /\
    trace w' = trace two_pending_then_error ++ es /\
    user_cb_calls es = map (delivery (@sample_lev linux 0)) two_conns /\
    accept_results es = map conn_fd two_conns ++ [-1] /\
    pending w' = tl [accept_fail 24].
Proof.
  apply (@listener_read_cb_drains linux (@sample_lev linux 0) 7 3 2 two_conns
           [accept_fail 24] two_pending_then_error);
    [reflexivity | repeat (apply Forall_cons; [cbn; lia|]); apply Forall_nil
    | reflexivity | cbn; lia].
Defined.

Lemma accept_failure_classified_witness :
  exists w' es,
    @listener_read_cb linux 3 7 2 (@sample_lev linux 0) two_pending_then_error
      = Some (tt, w') /\
    trace w' = trace two_pending_then_error ++ es
               ++ @accept_warning linux 7 24 /\
    log_calls (es ++ @accept_warning linux 7 24) =
      (if @EVUTIL_ERR_ACCEPT_RETRIABLE linux 24 then []
       else [c_event_sock_warn 7 "Error from accept() call"]) /\
    accept_results es = map conn_fd two_conns ++ [-1] /\
    teardown_calls (es ++ @accept_warning linux 7 24) = [] /\
    registration_calls (es ++ @accept_warning linux 7 24) = [] /\
    registered 4096 (trace w') = registered 4096 (trace two_pending_then_error).
Proof.
  apply (@accept_failure_classified linux (@sample_lev linux 0) 7 3 2 two_conns
           [accept_fail 24] two_pending_then_error);
    [reflexivity | repeat (apply Forall_cons; [cbn; lia|]); apply Forall_nil
    | reflexivity | cbn; lia].
Defined.

Lemma nonblocking_before_delivery_witness :
  exists w' es,
    @listener_read_cb linux 3 7 2 (@sample_lev linux 0) two_pending_then_error
      = Some (tt, w') /\
    trace w' = trace two_pending_then_error ++ es /\
    user_cb_calls es = map (delivery (@sample_lev linux 0)) two_conns /\
    nonblocking_calls es = map conn_fd two_conns /\
    forall pre post fn l x sa len arg r0,
      es = pre ++ (c_user_cb fn l x sa len arg, r0) :: post ->
      exists pre' r,
        pre = pre' ++ [(c_accept 7, x); (c_make_socket_nonblocking x, r)].
Proof.
  apply (@nonblocking_before_delivery linux (@sample_lev linux 0) 7 3 2 two_conns
           [accept_fail 24] two_pending_then_error);
    [reflexivity | repeat (apply Forall_cons; [cbn; lia|]); apply Forall_nil
    | reflexivity | cbn; lia].
Defined.

(** ** The bind helper *)

Section BindHelper.
Context {P : Platform}.

(** C3, the step that breaks it: when [socket] has returned a descriptor
    and [evutil_make_socket_nonblocking] fails on it,
    [evconnlistener_new_bind] returns NULL after these two calls and
    nothing else: the descriptor it created is not closed. *)
Theorem new_bind_nonblocking_failure_leaks
    b cb_ ptr fl backlog sa socklen w :
  let family := match sa with Some a => sa_family a | None => AF_UNSPEC end in
  let fd := reply w (trace w) (c_socket family SOCK_STREAM 0) in
  let r := reply w (trace w ++ [(c_socket family SOCK_STREAM 0, fd)])
             (c_make_socket_nonblocking fd) in
  backlog <> 0 ->
  fd <> -1 ->
  r < 0 ->
  exists w' es,
    evconnlistener_new_bind b cb_ ptr fl backlog sa socklen w
      = Some (None, w') /\
    trace w' = trace w ++ es /\
    es = [(c_socket family SOCK_STREAM 0, fd);
          (c_make_socket_nonblocking fd, r)] /\
    created_fds es = [fd] /\
    closed_fds es = [].
Proof.
  cbv zeta. intros Hb Hfd Hr.
  apply Z.eqb_neq in Hb, Hfd. apply Z.ltb_lt in Hr.
  do 2 eexists. split.
  { unfold evconnlistener_new_bind. cbv zeta.
    rewrite Hb, bind_call, Hfd, bind_call. cbn [trace reply log_event].
    match goal with
    | |- context [?x <? 0] =>
        replace (x <? 0) with true by (symmetry; exact Hr)
    end.
    reflexivity. }
  trace_of_run. repeat split.
Qed.

(** Every run of [evconnlistener_new_bind], by the step that failed:
    after a failing [fcntl] or a failing [bind] the descriptor has been
    closed when NULL is returned; after a failing
    [evutil_make_socket_nonblocking] it has not. *)
Lemma new_bind_failure_paths b cb_ ptr fl backlog sa socklen w :
  returns (evconnlistener_new_bind b cb_ ptr fl backlog sa socklen w)
    (fun res w' =>
       exists es,
         trace w' = trace w ++ es /\
         (forall fd r, In (c_fcntl fd F_SETFD FD_CLOEXEC, r) es -> r = -1 ->
                       res = None /\ closed_fds es = [fd]) /\
         (forall fd a len r, In (c_bind fd a len, r) es -> r < 0 ->
                             res = None /\ closed_fds es = [fd]) /\
         (forall fd r, In (c_make_socket_nonblocking fd, r) es -> r < 0 ->
                       res = None /\ closed_fds es = [])).
Proof.
  unfold evconnlistener_new_bind, evconnlistener_new, evconnlistener_enable,
    event_listener_enable, event_assign.
  cbv zeta. cbn [base ops lev_ptr].
  exec; eexists; (split; [trace_of_run; try reflexivity;
                          symmetry; apply app_nil_r|]).
  all: repeat match goal with
      | |- _ /\ _ => split
      | |- forall _, _ => intro
      | H : In _ _ |- _ => cbn [In] in H
      | H : _ \/ _ |- _ => destruct H
      | H : False |- _ => contradiction
      | H : (_, _) = (_, _) |- _ => injection H as H ?; try discriminate H
      | H : c_fcntl _ _ _ = c_fcntl _ _ _ |- _ => injection H as ? ? ?
      | H : c_bind _ _ _ = c_bind _ _ _ |- _ => injection H as ? ? ?
      | H : c_make_socket_nonblocking _ = c_make_socket_nonblocking _ |- _ =>
          injection H as ?
      | H : (_ <? _) = false |- _ => apply Z.ltb_ge in H
      | H : (_ =? _) = false |- _ => apply Z.eqb_neq in H
      end;
    subst; try lia; try reflexivity; try congruence.
Qed.

End BindHelper.

Lemma new_bind_nonblocking_failure_leaks_witness :
  exists w' es,
    @evconnlistener_new_bind linux 0 77 88 0 16 (Some sample_addr) 16
      (world_of [] nonblocking_fails) = Some (None, w') /\
    trace w' = trace (world_of [] nonblocking_fails) ++ es /\
    es = [(c_socket 2 1 0, 5); (c_make_socket_nonblocking 5, -1)] /\
    created_fds es = [5] /\
    closed_fds es = [].
Proof.
  apply (@new_bind_nonblocking_failure_leaks linux 0 77 88 0 16
           (Some sample_addr) 16 (world_of [] nonblocking_fails));
    cbn; lia.
Defined.

(** ** The completion backend *)

Section Completion.
Context {P : Platform}.

Lemma bind_AcceptEx {A} lfd afd a rl ll rml (k : Z * list Z -> M A) w :
  bind (AcceptEx lfd afd a rl ll rml) k w =
  let c := c_AcceptEx lfd afd (as_ptr a) rl ll rml in
  let r := reply w (trace w) c in
  k (r, if r =? 0 then addrbuf a
        else acceptex_data w (trace (log_event (c, r) w)))
    (log_event (c, r) w).
Proof. reflexivity. Qed.

Lemma bind_getsockname {A} fd (k : Z * sockaddr -> M A) w :
  bind (getsockname fd) k w =
  k (reply w (trace w) (c_getsockname fd), sockname w fd)
    (log_event (c_getsockname fd, reply w (trace w) (c_getsockname fd)) w).
Proof. reflexivity. Qed.

Lemma extends_trans w w1 w2 :
  (exists es, trace w1 = trace w ++ es) ->
  (exists es, trace w2 = trace w1 ++ es) ->
  exists es, trace w2 = trace w ++ es.
Proof.
  intros (es1 & H1) (es2 & H2). exists (es1 ++ es2).
  now rewrite H2, H1, app_assoc.
Qed.

Ltac solve_extends :=
  eexists; cbn [trace log_event]; rewrite ?app_single_assoc;
  first [reflexivity | symmetry; apply app_nil_r].

Ltac exec_AcceptEx :=
  rewrite bind_AcceptEx; cbv zeta;
  match goal with
  | |- context [reply ?w ?t ?c] => generalize (reply w t c); intro
  end;
  cbv beta iota.

(** [start_accepting] returns 0 or -1, and neither it nor
    [accepted_socket_cb] rewrites the history: they only add to it. *)
Lemma start_accepting_result fuel :
  (forall a w, on_return (start_accepting fuel a w)
                 (fun r w' => (fst r = 0 \/ fst r = -1) /\
                              exists es, trace w' = trace w ++ es)) /\
  (forall a key n w, on_return (accepted_socket_cb fuel a key n w)
                       (fun _ w' => exists es, trace w' = trace w ++ es)).
Proof.
  induction fuel as [|fuel [IHs IHc]]; split; intros; try exact I.
  - cbn [start_accepting]. cbv zeta.
    exec; try exec_AcceptEx; exec;
      try (split; [cbn [fst]; auto | solve_extends]).
    all: eapply on_return_bind; [apply IHc|];
      cbv beta; intros a1 w1 Hext; exec;
      (split; [cbn [fst]; auto|]);
      (eapply extends_trans; [|exact Hext]); solve_extends.
  - cbn [accepted_socket_cb].
    destruct (GetAcceptExSockaddrs _ _ _ _) as [[sa_local socklen_local]
                                                  [sa_remote socklen_remote]].
    exec. eapply on_return_bind; [apply IHs|].
    cbv beta. intros [r a1] w1 [_ Hext]. exec.
    (eapply extends_trans; [|exact Hext]); solve_extends.
Qed.


Ltac exec_iocp :=
  repeat first
    [ exec_step
    | rewrite bind_getsockname;
      match goal with
      | |- context [reply ?w ?t ?c] => generalize (reply w t c); intro
      end;
      cbv beta iota
    | exec_AcceptEx ].

(** C1, where the code breaks it: in every run of [accepted_socket_cb]
    that comes back, the first call is the user callback, and it is made
    with the remote address and length that [GetAcceptExSockaddrs] read
    out of the slot's buffer, but with [INVALID_SOCKET] as the
    descriptor, whatever socket the slot held: [as->s] is overwritten
    before it is passed. *)
Theorem accepted_socket_cb_passes_invalid_socket fuel a key n w a' w' :
  accepted_socket_cb fuel a key n w = Some (a', w') ->
  let remote := snd (GetAcceptExSockaddrs (addrbuf a) 0
                       (Z.quot (buflen a) 2) (Z.quot (buflen a) 2)) in
  exists es,
    trace w' = trace w ++
      (c_user_cb (cb (iocp_base (as_lev a))) (iocp_ptr (as_lev a))
         INVALID_SOCKET (fst remote) (snd remote)
         (user_data (iocp_base (as_lev a))), 0) :: es.
Proof.
  destruct fuel as [|fuel]; [discriminate|].
  cbn [accepted_socket_cb].
  destruct (GetAcceptExSockaddrs _ _ _ _) as [[sa_local socklen_local]
                                                [sa_remote socklen_remote]].
  rewrite bind_call_void. cbn [s set_s as_lev snd fst]. intros Hrun.
  unfold bind in Hrun.
  match type of Hrun with
  | context [start_accepting fuel ?x ?w1] =>
      pose proof (proj1 (start_accepting_result fuel) x w1) as Hs;
      destruct (start_accepting fuel x w1) as [[[r a1] w2]|];
      [|discriminate]
  end.
  injection Hrun as <- <-. destruct Hs as [_ (es & ->)].
  exists es. cbn [trace log_event]. now rewrite app_single_assoc.
Qed.

(** A handle comes back from [evconnlistener_new_async] only out of a run
    whose [start_accepting] returned -1. *)
Lemma new_async_handle_only_on_failed_start fuel b cb_ ptr fl backlog fd w :
  on_return (evconnlistener_new_async fuel b cb_ ptr fl backlog fd w)
    (fun res w' =>
       match res with
       | Some lev =>
           exists a w1 a', start_accepting fuel a w1 = Some ((-1, a'), w')
       | None => True
       end).
Proof.
  unfold evconnlistener_new_async, new_accepting_socket. cbv zeta.
  exec_iocp; auto.
  all: unfold bind at 1;
    match goal with
    | |- context [start_accepting ?f ?x ?w1] =>
        pose proof (proj1 (start_accepting_result f) x w1) as Hs;
        destruct (start_accepting f x w1) as [[[r a1] w2]|] eqn:Hrun;
        [|exact I]
    end;
    destruct Hs as [[Hr|Hr] _]; cbn [fst] in Hr; subst r;
    exec_iocp; try discriminate; eauto.
Qed.

(** C10: when the listening socket's address family, as [getsockname]
    reports it, is neither [AF_INET] nor [AF_INET6], then
    [new_accepting_socket] returns NULL for that family without making a
    call, and [evconnlistener_new_async] comes back with NULL, whatever
    the fuel and whatever the other calls return. *)
Theorem new_async_rejects_other_families fuel b cb_ ptr fl backlog fd w :
  sa_family (sockname w fd) <> AF_INET ->
  sa_family (sockname w fd) <> AF_INET6 ->
  (forall lev w1,
      new_accepting_socket lev (sa_family (sockname w fd)) w1
        = Some (None, w1)) /\
  exists w',
    evconnlistener_new_async fuel b cb_ ptr fl backlog fd w = Some (None, w').
Proof.
  intros H4 H6. apply Z.eqb_neq in H4, H6. split.
  - intros lev w1. unfold new_accepting_socket. cbv zeta.
    now rewrite H4, H6.
  - enough (returns (evconnlistener_new_async fuel b cb_ ptr fl backlog fd w)
              (fun res _ => res = None)) as H.
    { apply returns_exists in H as (res & w' & Hrun & ->). eauto. }
    unfold evconnlistener_new_async, new_accepting_socket. cbv zeta.
    exec_iocp; auto;
      cbn [sockname log_event] in *; congruence.
Qed.

End Completion.

Lemma accepted_socket_cb_passes_invalid_socket_witness :
  exists a' w',
    @accepted_socket_cb win32 2 sample_slot 1 0 (world_of [] iocp_all_succeed)
      = Some (a', w') /\
    s sample_slot = 9 /\
    exists es,
      trace w' = trace (world_of [] iocp_all_succeed) ++
        (c_user_cb 77 4096 (-1) (Some (mk_sockaddr 2 (repeat 2 32))) 16 88, 0)
        :: es.
Proof.
  do 2 eexists. split; [lazy; reflexivity|]. split; [reflexivity|].
  eapply (@accepted_socket_cb_passes_invalid_socket win32 2 sample_slot 1 0
            (world_of [] iocp_all_succeed)).
  lazy; reflexivity.
Defined.

(** C2, where the code breaks it.  A handle comes back from
    [evconnlistener_new_async] only from a run whose [start_accepting]
    returned -1.  On WIN32, when every step succeeds and the first accept
    is posted on the listening descriptor 7, the constructor logs
    "Couldn't start accepting on socket" and returns NULL, and gives
    nothing back (no [mm_free], no [closesocket]); when [socket] fails
    inside [start_accepting], so that no accept is posted, it returns the
    handle. *)
Theorem evconnlistener_new_async_inverted :
  (forall (P : Platform) fuel b cb_ ptr fl backlog fd w,
      on_return (evconnlistener_new_async fuel b cb_ ptr fl backlog fd w)
        (fun res w' =>
           match res with
           | Some lev =>
               exists a w1 a',
                 start_accepting fuel a w1 = Some ((-1, a'), w')
           | None => True
           end)) /\
  (exists w',
      @evconnlistener_new_async win32 2 0 77 88 0 16 7
        (world_of [] iocp_all_succeed) = Some (None, w') /\
      posted_accepts (trace w') = [7] /\
      log_calls (trace w') =
        [c_event_warnx "Couldn't start accepting on socket"] /\
      freed_blocks (trace w') = [] /\
      closed_fds (trace w') = []) /\
  (exists lev w',
      @evconnlistener_new_async win32 2 0 77 88 0 16 7
        (world_of [] iocp_socket_fails) = Some (Some lev, w') /\
      posted_accepts (trace w') = []).
Proof.
  split; [intros; apply new_async_handle_only_on_failed_start|].
  split.
  - eexists. split; [lazy; reflexivity|]. repeat split.
  - do 2 eexists. split; [lazy; reflexivity|]. reflexivity.
Qed.

Lemma new_async_rejects_other_families_witness :
  (forall lev w1,
      @new_accepting_socket win32 lev 1 w1 = Some (None, w1)) /\
  exists w',
    @evconnlistener_new_async win32 2 0 77 88 0 16 7 unix_socket_world
      = Some (None, w').
Proof.
  apply (@new_async_rejects_other_families win32 2 0 77 88 0 16 7
           unix_socket_world); cbn; lia.
Defined.

(** ** Runs on concrete worlds *)

(** A drain with two connections pending and sockets made non-blocking:
    the whole history of the run. *)
Example drain_two_connections :
  option_map (fun x => trace (snd x))
    (@listener_read_cb linux 3 7 2 (@sample_lev linux 0)
       two_pending_then_error) =
  Some [ (c_accept 7, 8);
         (c_make_socket_nonblocking 8, 0);
         (c_user_cb 77 4096 8 (Some (mk_sockaddr 2 [192; 0; 2; 1])) 16 88, 0);
         (c_accept 7, 9);
         (c_make_socket_nonblocking 9, 0);
         (c_user_cb 77 4096 9 (Some (mk_sockaddr 2 [192; 0; 2; 2])) 16 88, 0);
         (c_accept 7, -1);
         (c_event_sock_warn 7 "Error from accept() call", 0) ].
Proof. reflexivity. Qed.

(** The same with [LEV_OPT_LEAVE_SOCKETS_BLOCKING] set, and with nothing
    left pending at the end: no descriptor is touched, nothing is
    logged. *)
Example drain_two_connections_blocking :
  option_map (fun x => trace (snd x))
    (@listener_read_cb linux 3 7 2 (@sample_lev linux 1)
       (world_of (map accept_conn two_conns) all_succeed)) =
  Some [ (c_accept 7, 8);
         (c_user_cb 77 4096 8 (Some (mk_sockaddr 2 [192; 0; 2; 1])) 16 88, 0);
         (c_accept 7, 9);
         (c_user_cb 77 4096 9 (Some (mk_sockaddr 2 [192; 0; 2; 2])) 16 88, 0);
         (c_accept 7, -1) ].
Proof. reflexivity. Qed.

(** With too little fuel the loop has not come back. *)
Example drain_out_of_fuel :
  @listener_read_cb linux 2 7 2 (@sample_lev linux 0) two_pending_then_error
  = None.
Proof. reflexivity. Qed.

(** The bind helper on a good day: the calls it makes, in order. *)
Example new_bind_all_succeed :
  option_map (fun x => map fst (trace (snd x)))
    (@evconnlistener_new_bind linux 1 77 88 (4 + 8) (-1) (Some sample_addr) 16
       (world_of [] all_succeed)) =
  Some [ c_socket 2 1 0;
         c_make_socket_nonblocking 5;
         c_fcntl 5 2 1;
         c_setsockopt 5 1 9 1 4;
         c_make_listen_socket_reuseable 5;
         c_bind 5 sample_addr 16;
         c_listen 5 128;
         c_mm_calloc 1 160;
         c_event_assign 4096 1 5 18 fn_listener_read_cb 4096;
         c_event_add 4096 ].
Proof. reflexivity. Qed.

(** The completion backend's constructor when every step succeeds: the
    calls it makes before it returns NULL. *)
Example new_async_all_succeed :
  option_map (fun x => (fst x, map fst (trace (snd x))))
    (@evconnlistener_new_async win32 2 0 77 88 0 16 7
       (world_of [] iocp_all_succeed)) =
  Some (None,
        [ c_listen 7 16;
          c_getsockname 7;
          c_mm_calloc 1 160;
          c_mm_calloc 1 8;
          c_mm_calloc 1 127;
          c_event_overlapped_init 520192 fn_accepted_socket_cb;
          c_socket 2 1 0;
          c_setsockopt 5 65535 28683 7 8;
          c_make_socket_nonblocking 5;
          c_event_iocp_port_associate 0 5 1;
          c_AcceptEx 7 5 520192 0 32 32;
          c_WSAGetLastError;
          c_event_warnx "Couldn't start accepting on socket" ]).
Proof. reflexivity. Qed.

(** ** More proof tools *)

Ltac exec_all :=
  repeat first
    [ exec_step
    | rewrite bind_getsockname;
      match goal with
      | |- context [reply ?w ?t ?c] => generalize (reply w t c); intro
      end;
      cbv beta iota
    | rewrite bind_AcceptEx; cbv zeta;
      match goal with
      | |- context [reply ?w ?t ?c] => generalize (reply w t c); intro
      end;
      cbv beta iota ].

Ltac to_Z :=
  repeat match goal with
    | H : (_ <? _) = false |- _ => apply Z.ltb_ge in H
    | H : (_ <? _) = true |- _ => apply Z.ltb_lt in H
    | H : (_ =? _) = false |- _ => apply Z.eqb_neq in H
    | H : (_ =? _) = true |- _ => apply Z.eqb_eq in H
    | H : (_ >? _) = true |- _ => apply Z.gtb_lt in H
    | H : (_ >? _) = false |- _ => rewrite Z.gtb_ltb in H
    | H : negb _ = true |- _ => apply negb_true_iff in H
    | H : negb _ = false |- _ => apply negb_false_iff in H
    end.

Lemma flat_map_nil_Forall {A B} (f : A -> list B) (Q : A -> Prop) l :
  Forall Q l -> (forall x, Q x -> f x = []) -> flat_map f l = [].
Proof.
  induction 1 as [|x l Hx _ IH]; intros Hf; cbn; [reflexivity|].
  now rewrite (Hf x Hx), IH.
Qed.

Lemma flat_map_Forall {A B} (f : A -> list B) (Q : A -> Prop) (R : B -> Prop) l :
  Forall Q l -> (forall x, Q x -> Forall R (f x)) -> Forall R (flat_map f l).
Proof.
  induction 1 as [|x l Hx _ IH]; intros Hf; cbn; [constructor|].
  apply Forall_app. auto.
Qed.

Lemma closed_fds_app es1 es2 :
  closed_fds (es1 ++ es2) = closed_fds es1 ++ closed_fds es2.
Proof. apply flat_map_app. Qed.

Lemma freed_blocks_app es1 es2 :
  freed_blocks (es1 ++ es2) = freed_blocks es1 ++ freed_blocks es2.
Proof. apply flat_map_app. Qed.

Lemma allocated_blocks_app es1 es2 :
  allocated_blocks (es1 ++ es2) = allocated_blocks es1 ++ allocated_blocks es2.
Proof. apply flat_map_app. Qed.


Lemma socket_calls_app es1 es2 :
  socket_calls (es1 ++ es2) = socket_calls es1 ++ socket_calls es2.
Proof. apply flat_map_app. Qed.

Lemma acceptex_lengths_app es1 es2 :
  acceptex_lengths (es1 ++ es2) = acceptex_lengths es1 ++ acceptex_lengths es2.
Proof. apply flat_map_app. Qed.

Lemma posted_accepts_app es1 es2 :
  posted_accepts (es1 ++ es2) = posted_accepts es1 ++ posted_accepts es2.
Proof. apply flat_map_app. Qed.


Lemma listened_quiet fd backlog r :
  closed_fds (listened fd backlog r) = [] /\
  freed_blocks (listened fd backlog r) = [] /\
  allocated_blocks (listened fd backlog r) = [] /\
  socket_calls (listened fd backlog r) = [] /\
  acceptex_lengths (listened fd backlog r) = [] /\
  posted_accepts (listened fd backlog r) = [].
Proof.
  unfold listened. destruct (backlog >? 0), (backlog <? 0); repeat split.
Qed.

Lemma created_fds_app es1 es2 :
  created_fds (es1 ++ es2) = created_fds es1 ++ created_fds es2.
Proof. apply flat_map_app. Qed.


(** ** More about the readiness backend *)

Section MoreReadiness.
Context {P : Platform}.

Ltac in_events :=
  repeat match goal with
    | H : In _ _ |- _ => cbn [In] in H
    | H : _ \/ _ |- _ => destruct H
    | H : False |- _ => contradiction
    | H : exists _, _ |- _ => destruct H
    | H : _ /\ _ |- _ => destruct H
    | H : (_, _) = (_, _) |- _ => injection H as H ?; try discriminate H
    | H : (_ <? _) = false |- _ => apply Z.ltb_ge in H
    | H : (_ <? _) = true |- _ => apply Z.ltb_lt in H
    | H : (_ =? _) = false |- _ => apply Z.eqb_neq in H
    | H : (_ =? _) = true |- _ => apply Z.eqb_eq in H
    | H : (_ >? _) = true |- _ => apply Z.gtb_lt in H
    end.

(** X1: [evconnlistener_new] always returns, and it returns NULL exactly
    when its [listen] call returned a negative value or [mm_calloc]
    returned NULL. *)
Theorem evconnlistener_new_fails_exactly_when b cb_ ptr fl backlog fd w :
  exists res w' es,
    evconnlistener_new b cb_ ptr fl backlog fd w = Some (res, w') /\
    trace w' = trace w ++ es /\
    (res = None <->
       (exists bl r, In (c_listen fd bl, r) es /\ r < 0) \/
       (exists n size, In (c_mm_calloc n size, 0) es)).
Proof.
  enough (returns (evconnlistener_new b cb_ ptr fl backlog fd w)
            (fun res w' => exists es, trace w' = trace w ++ es /\
               (res = None <->
                  (exists bl r, In (c_listen fd bl, r) es /\ r < 0) \/
                  (exists n size, In (c_mm_calloc n size, 0) es)))) as H.
  { apply returns_exists in H as (res & w' & Hrun & es & H). eauto 10. }
  unfold evconnlistener_new, evconnlistener_enable, event_listener_enable,
    event_assign.
  cbv zeta. cbn [base ops lev_ptr].
  exec; eexists; (split; [trace_of_run; try reflexivity|]).
  all: in_events; subst.
  all: split; intros Hx; try discriminate Hx; try reflexivity.
  all: try (left; do 2 eexists; split; [cbn [In]; eauto|lia]).
  all: try (right; do 2 eexists; cbn [In]; eauto).
  all: in_events; subst; try lia; try congruence.
Qed.

Lemma evconnlistener_new_clean_run b cb_ ptr fl backlog fd w :
  returns (evconnlistener_new b cb_ ptr fl backlog fd w)
    (fun res w' =>
       exists es,
         trace w' = trace w ++ es /\
         closed_fds es = [] /\ freed_blocks es = [] /\
         match res with
         | None => allocated_blocks es = [] /\ registration_calls es = []
         | Some lev => allocated_blocks es = [lev_ptr lev] /\ lev_ptr lev <> 0
         end).
Proof.
  unfold evconnlistener_new, evconnlistener_enable, event_listener_enable,
    event_assign.
  cbv zeta. cbn [base ops lev_ptr].
  exec; eexists; (split; [trace_of_run; try reflexivity|]);
    cbn; rewrite ?Heqb, ?Heqb0, ?Heqb1, ?Heqb2, ?Heqb3; cbn;
    repeat split; in_events; auto.
Qed.

(** X2: [evconnlistener_new] never closes a descriptor and never frees a
    block; when it returns NULL it holds no allocation and has made no
    call on a registration. *)
Theorem evconnlistener_new_failure_is_clean b cb_ ptr fl backlog fd w :
  exists res w' es,
    evconnlistener_new b cb_ ptr fl backlog fd w = Some (res, w') /\
    trace w' = trace w ++ es /\
    closed_fds es = [] /\
    freed_blocks es = [] /\
    (res = None -> allocated_blocks es = [] /\ registration_calls es = []).
Proof.
  destruct (returns_exists _ _ (evconnlistener_new_clean_run b cb_ ptr fl backlog fd w))
    as (res & w' & Hrun & es & Htr & Hc & Hf & Hres).
  exists res, w', es. split; [exact Hrun|]. split; [exact Htr|].
  split; [exact Hc|]. split; [exact Hf|]. intros ->. exact Hres.
Qed.


(** X4: on a handle of [evconnlistener_new], [evconnlistener_enable]
    makes one call, [event_add] on the handle's event, and returns what
    it returned; the event is registered afterwards if that is 0 and is
    as it was otherwise; no other event's registration changes. *)
Theorem enable_registers b cb_ ptr fl backlog fd w lev w1 :
  evconnlistener_new b cb_ ptr fl backlog fd w = Some (Some lev, w1) ->
  forall w2, exists r w',
    Handle.evconnlistener_enable (to_event lev) w2 = Some (r, w') /\
    trace w' = trace w2 ++ [(c_event_add (lev_ptr lev), r)] /\
    registered (lev_ptr lev) (trace w') =
      (if r =? 0 then true else registered (lev_ptr lev) (trace w2)) /\
    forall ev, ev <> lev_ptr lev ->
               registered ev (trace w') = registered ev (trace w2).
Proof.
  intros Hrun w2.
  destruct (evconnlistener_new_spec b cb_ ptr fl backlog fd w)
    as (r & w' & es & Hrun' & _ & _ & Hlev).
  rewrite Hrun in Hrun'. injection Hrun' as <- <-.
  destruct Hlev as (Hbase & _).
  unfold Handle.evconnlistener_enable, Handle.event_listener_enable.
  cbn [deref upcast_event]. rewrite Hbase. cbn [ops].
  do 2 eexists. split; [reflexivity|]. cbn [trace log_event].
  split; [reflexivity|]. split.
  - rewrite registered_snoc, Z.eqb_refl. cbn [andb]. reflexivity.
  - intros ev Hev. rewrite registered_snoc.
    apply not_eq_sym, Z.eqb_neq in Hev. now rewrite Hev.
Qed.

(** X5: on a handle of [evconnlistener_new], [evconnlistener_disable]
    makes one call, [event_del] on the handle's event, and returns what
    it returned; the event is unregistered afterwards if that is 0 and is
    as it was otherwise; no other event's registration changes. *)
Theorem disable_unregisters b cb_ ptr fl backlog fd w lev w1 :
  evconnlistener_new b cb_ ptr fl backlog fd w = Some (Some lev, w1) ->
  forall w2, exists r w',
    Handle.evconnlistener_disable (to_event lev) w2 = Some (r, w') /\
    trace w' = trace w2 ++ [(c_event_del (lev_ptr lev), r)] /\
    registered (lev_ptr lev) (trace w') =
      (if r =? 0 then false else registered (lev_ptr lev) (trace w2)) /\
    forall ev, ev <> lev_ptr lev ->
               registered ev (trace w') = registered ev (trace w2).
Proof.
  intros Hrun w2.
  destruct (evconnlistener_new_spec b cb_ ptr fl backlog fd w)
    as (r & w' & es & Hrun' & _ & _ & Hlev).
  rewrite Hrun in Hrun'. injection Hrun' as <- <-.
  destruct Hlev as (Hbase & _).
  unfold Handle.evconnlistener_disable, Handle.event_listener_disable.
  cbn [deref upcast_event]. rewrite Hbase. cbn [ops].
  do 2 eexists. split; [reflexivity|]. cbn [trace log_event].
  split; [reflexivity|]. split.
  - rewrite registered_snoc, Z.eqb_refl. cbn [andb]. reflexivity.
  - intros ev Hev. rewrite registered_snoc.
    apply not_eq_sym, Z.eqb_neq in Hev. now rewrite Hev.
Qed.

(** X6: the event of a handle made by [evconnlistener_new] carries
    [listener_read_cb] with the handle as its argument, and a run of
    [listener_read_cb] on that handle hands every pending connection to
    the callback given to the constructor, with the handle, the accepted
    descriptor, the peer address and its length and the user pointer
    given to the constructor; descriptors are set non-blocking exactly
    when the constructor's flags lack [LEV_OPT_LEAVE_SOCKETS_BLOCKING]. *)
Theorem constructed_handle_delivers
    b cb_ ptr fl backlog fd w0 lev w1 fuel what cs rest w :
  evconnlistener_new b cb_ ptr fl backlog fd w0 = Some (Some lev, w1) ->
  pending w = map accept_conn cs ++ rest ->
  Forall (fun c => 0 <= conn_fd c) cs ->
  next_accept_fails rest = true ->
  (List.length cs < fuel)%nat ->
  ev_callback (listener lev) = fn_listener_read_cb /\
  ev_arg (listener lev) = lev_ptr lev /\
  exists w' es,
    listener_read_cb fuel (ev_fd (listener lev)) what lev w = Some (tt, w') /\
    trace w' = trace w ++ es /\
    user_cb_calls es =
      map (fun c => c_user_cb cb_ (lev_ptr lev) (conn_fd c)
                      (Some (conn_peer c)) (conn_socklen c) ptr) cs /\
    accept_results es = map conn_fd cs ++ [-1] /\
    nonblocking_calls es =
      (if has_flag fl LEV_OPT_LEAVE_SOCKETS_BLOCKING then []
       else map conn_fd cs).
Proof.
  intros Hrun Hq Hfd Hfail Hfuel.
  destruct (evconnlistener_new_spec b cb_ ptr fl backlog fd w0)
    as (r & w2 & es0 & Hrun' & _ & _ & Hlev).
  rewrite Hrun in Hrun'. injection Hrun' as <- <-.
  destruct Hlev as (Hbase & Hev & _).
  rewrite Hev. cbn [ev_callback ev_arg ev_fd]. split; [reflexivity|].
  split; [reflexivity|].
  destruct (listener_read_cb_spec lev fd fuel what cs rest w Hq Hfd Hfail Hfuel)
    as (w' & es & Hrun2 & Htr & Hd & Hp).
  destruct (accept_warning_views fd (next_accept_error rest))
    as (Hcb & Hacc & _ & _ & Hnb).
  exists w', (es ++ accept_warning fd (next_accept_error rest)).
  split; [exact Hrun2|]. split; [exact Htr|].
  rewrite user_cb_calls_app, accept_results_app, nonblocking_calls_app,
    Hcb, Hacc, Hnb, !app_nil_r.
  rewrite (drain_user_cb_calls _ _ _ _ Hd), (drain_accept_results _ _ _ _ Hd),
    (drain_nonblocking_calls _ _ _ _ Hd).
  unfold delivery. rewrite Hbase. cbn [cb user_data flags]. auto.
Qed.


(** X7: an [accept] error ends one run of [listener_read_cb] but loses no
    connection: with connections [cs1] pending, then an error, then
    connections [cs2], the first run delivers [cs1] and the next run
    delivers [cs2], each in order. *)
Theorem drain_resumes_after_error
    lev fd fuel1 fuel2 what cs1 err cs2 rest w :
  pending w = map accept_conn cs1
              ++ accept_fail err :: map accept_conn cs2 ++ rest ->
  Forall (fun c => 0 <= conn_fd c) cs1 ->
  Forall (fun c => 0 <= conn_fd c) cs2 ->
  next_accept_fails rest = true ->
  (List.length cs1 < fuel1)%nat ->
  (List.length cs2 < fuel2)%nat ->
  exists w1 w2 es1 es2,
    listener_read_cb fuel1 fd what lev w = Some (tt, w1) /\
    listener_read_cb fuel2 fd what lev w1 = Some (tt, w2) /\
    trace w1 = trace w ++ es1 /\
    trace w2 = trace w1 ++ es2 /\
    user_cb_calls es1 = map (delivery lev) cs1 /\
    user_cb_calls es2 = map (delivery lev) cs2 /\
    pending w2 = tl rest.
Proof.
  intros Hq H1 H2 Hfail Hf1 Hf2.
  destruct (listener_read_cb_spec lev fd fuel1 what cs1
              (accept_fail err :: map accept_conn cs2 ++ rest) w Hq H1
              eq_refl Hf1)
    as (w1 & es1 & Hrun1 & Htr1 & Hd1 & Hp1).
  cbn [tl] in Hp1.
  destruct (listener_read_cb_spec lev fd fuel2 what cs2 rest w1 Hp1 H2
              Hfail Hf2)
    as (w2 & es2 & Hrun2 & Htr2 & Hd2 & Hp2).
  destruct (accept_warning_views fd err) as (Hcb1 & _).
  destruct (accept_warning_views fd (next_accept_error rest)) as (Hcb2 & _).
  exists w1, w2, (es1 ++ accept_warning fd err),
    (es2 ++ accept_warning fd (next_accept_error rest)).
  repeat split; auto.
  - rewrite user_cb_calls_app, Hcb1, app_nil_r.
    now apply drain_user_cb_calls with (fd := fd).
  - rewrite user_cb_calls_app, Hcb2, app_nil_r.
    now apply drain_user_cb_calls with (fd := fd).
Qed.

End MoreReadiness.

(** ** More about the bind helper *)

Section MoreBind.
Context {P : Platform}.

Lemma new_bind_success_run b cb_ ptr fl backlog sa socklen w :
  returns (evconnlistener_new_bind b cb_ ptr fl backlog sa socklen w)
    (fun res w' =>
       match res with
       | None => True
       | Some lev =>
           exists es fd,
             trace w' = trace w ++ es /\
             base lev = mk_evconnlistener evconnlistener_event_ops cb_ ptr fl /\
             ev_fd (listener lev) = fd /\
             ev_base (listener lev) = b /\
             created_fds es = [fd] /\
             closed_fds es = [] /\
             map fst es =
               [ c_socket
                   (match sa with Some a => sa_family a | None => AF_UNSPEC end)
                   SOCK_STREAM 0;
                 c_make_socket_nonblocking fd ]
               ++ (if negb WIN32 && has_flag fl LEV_OPT_CLOSE_ON_EXEC
                   then [c_fcntl fd F_SETFD FD_CLOEXEC] else [])
               ++ [c_setsockopt fd SOL_SOCKET SO_KEEPALIVE 1 sizeof_int]
               ++ (if has_flag fl LEV_OPT_REUSEABLE
                   then [c_make_listen_socket_reuseable fd] else [])
               ++ (match sa with
                   | Some a => [c_bind fd a socklen]
                   | None => []
                   end)
               ++ [ c_listen fd (if backlog >? 0 then backlog else 128);
                    c_mm_calloc 1 sizeof_evconnlistener_event;
                    c_event_assign (lev_ptr lev) b fd (Z.lor EV_READ EV_PERSIST)
                      fn_listener_read_cb (lev_ptr lev);
                    c_event_add (lev_ptr lev) ]
       end).
Proof.
  unfold evconnlistener_new_bind, evconnlistener_new, evconnlistener_enable,
    event_listener_enable, event_assign.
  cbv zeta. cbn [base ops lev_ptr].
  exec; try exact I.
  all: try (exfalso; to_Z; lia).
  all: eexists _, _; (split; [trace_of_run; reflexivity|]);
    cbn [base listener ev_fd ev_base lev_ptr];
    repeat match goal with
      | H : ?c = _ |- context [if ?c then _ else _] => rewrite H
      end;
    repeat split.
Qed.

(** X8: when [evconnlistener_new_bind] returns a handle, the calls it
    made are, in this order: [socket] for the address family (AF_UNSPEC
    without an address), non-blocking, [fcntl(FD_CLOEXEC)] if and only if
    not WIN32 and [LEV_OPT_CLOSE_ON_EXEC], [SO_KEEPALIVE], reuseable if
    and only if [LEV_OPT_REUSEABLE], [bind] if and only if an address was
    given, [listen] with the backlog (128 for a negative one),
    [mm_calloc], [event_assign], [event_add].  The handle's descriptor,
    as [evconnlistener_get_fd] reports it, is the socket created, and it
    has not been closed. *)
Theorem new_bind_success_calls b cb_ ptr fl backlog sa socklen w lev w' :
  evconnlistener_new_bind b cb_ ptr fl backlog sa socklen w
    = Some (Some lev, w') ->
  exists es fd,
    trace w' = trace w ++ es /\
    created_fds es = [fd] /\
    closed_fds es = [] /\
    (forall w2, Handle.evconnlistener_get_fd (to_event lev) w2 = Some (fd, w2)) /\
    map fst es =
      [ c_socket (match sa with Some a => sa_family a | None => AF_UNSPEC end)
          SOCK_STREAM 0;
        c_make_socket_nonblocking fd ]
      ++ (if negb WIN32 && has_flag fl LEV_OPT_CLOSE_ON_EXEC
          then [c_fcntl fd F_SETFD FD_CLOEXEC] else [])
      ++ [c_setsockopt fd SOL_SOCKET SO_KEEPALIVE 1 sizeof_int]
      ++ (if has_flag fl LEV_OPT_REUSEABLE
          then [c_make_listen_socket_reuseable fd] else [])
      ++ (match sa with
          | Some a => [c_bind fd a socklen]
          | None => []
          end)
      ++ [ c_listen fd (if backlog >? 0 then backlog else 128);
           c_mm_calloc 1 sizeof_evconnlistener_event;
           c_event_assign (lev_ptr lev) b fd (Z.lor EV_READ EV_PERSIST)
             fn_listener_read_cb (lev_ptr lev);
           c_event_add (lev_ptr lev) ].
Proof.
  intros Hrun.
  pose proof (new_bind_success_run b cb_ ptr fl backlog sa socklen w) as H.
  rewrite Hrun in H. cbn in H.
  destruct H as (es & fd & Htr & Hbase & Hfd & _ & Hc & Hcl & Hcalls).
  exists es, fd. repeat split; auto.
  intros w2. unfold Handle.evconnlistener_get_fd, Handle.event_listener_getfd.
  cbn [deref upcast_event]. rewrite Hbase. cbn [ops].
  unfold event_get_fd. now rewrite Hfd.
Qed.

Lemma new_bind_failure_run b cb_ ptr fl backlog sa socklen w :
  returns (evconnlistener_new_bind b cb_ ptr fl backlog sa socklen w)
    (fun res w' =>
       match res with
       | Some _ => True
       | None =>
           exists es,
             trace w' = trace w ++ es /\
             ((es = [] /\ backlog = 0) \/
              exists es0 c v,
                es = es0 ++ [(c, v)] /\
                ((exists family, c = c_socket family SOCK_STREAM 0 /\
                                 v = -1 /\ es0 = []) \/
                 (exists fd, c = c_close fd /\
                             created_fds es = [fd] /\ closed_fds es = [fd]) \/
                 (exists fd,
                     created_fds es = [fd] /\ closed_fds es = [] /\
                     ((c = c_make_socket_nonblocking fd /\ v < 0) \/
                      (exists bl, c = c_listen fd bl /\ v < 0) \/
                      (exists n size, c = c_mm_calloc n size /\ v = 0)))))
       end).
Proof.
  unfold evconnlistener_new_bind, evconnlistener_new, evconnlistener_enable,
    event_listener_enable, event_assign.
  cbv zeta. cbn [base ops lev_ptr].
  exec; try exact I.
  all: eexists; (split; [trace_of_run; try reflexivity;
                          symmetry; apply app_nil_r|]).
  all: to_Z; subst.
  all: first
    [ left; split; reflexivity
    | right; eexists [], _, _; split; [reflexivity|];
      left; eexists; repeat split; reflexivity
    | right; eexists [_], _, _; split; [reflexivity|];
      right; right; eexists; split; [reflexivity|]; split; [reflexivity|];
      left; split; [reflexivity|assumption]
    | right;
      first [ eexists [_; _], _, _; split; [reflexivity|]
            | eexists [_; _; _], _, _; split; [reflexivity|]
            | eexists [_; _; _; _], _, _; split; [reflexivity|]
            | eexists [_; _; _; _; _], _, _; split; [reflexivity|]
            | eexists [_; _; _; _; _; _], _, _; split; [reflexivity|]
            | eexists [_; _; _; _; _; _; _], _, _; split; [reflexivity|] ];
      right;
      first [ left; eexists; repeat split; reflexivity
            | right; eexists; split; [reflexivity|]; split; [reflexivity|];
              right;
              first [ left; eexists; split; [reflexivity|assumption]
                    | right; do 2 eexists; split; reflexivity ] ] ].
Qed.

(** X9: when [evconnlistener_new_bind] returns NULL, either the backlog
    is 0 and no call was made, or the last call tells why: a [socket]
    that returned -1 (the only call made), a [close] of the socket it
    created (after a failed [fcntl] or [bind]), or a failed
    [evutil_make_socket_nonblocking], [listen] or [mm_calloc]; in these
    three cases the socket it created has not been closed. *)
Theorem new_bind_failure_causes b cb_ ptr fl backlog sa socklen w w' :
  evconnlistener_new_bind b cb_ ptr fl backlog sa socklen w = Some (None, w') ->
  exists es,
    trace w' = trace w ++ es /\
    ((es = [] /\ backlog = 0) \/
     exists es0 c v,
       es = es0 ++ [(c, v)] /\
       ((exists family, c = c_socket family SOCK_STREAM 0 /\
                        v = -1 /\ es0 = []) \/
        (exists fd, c = c_close fd /\
                    created_fds es = [fd] /\ closed_fds es = [fd]) \/
        (exists fd,
            created_fds es = [fd] /\ closed_fds es = [] /\
            ((c = c_make_socket_nonblocking fd /\ v < 0) \/
             (exists bl, c = c_listen fd bl /\ v < 0) \/
             (exists n size, c = c_mm_calloc n size /\ v = 0))))).
Proof.
  intros Hrun.
  pose proof (new_bind_failure_run b cb_ ptr fl backlog sa socklen w) as H.
  rewrite Hrun in H. exact H.
Qed.

(** X10: freeing a handle that [evconnlistener_new_bind] returned calls
    [event_del], then closes the socket that the helper created if and
    only if [LEV_OPT_CLOSE_ON_FREE] is set, then frees the handle. *)
Theorem new_bind_then_free b cb_ ptr fl backlog sa socklen w lev w1 :
  evconnlistener_new_bind b cb_ ptr fl backlog sa socklen w
    = Some (Some lev, w1) ->
  exists es0 fd,
    trace w1 = trace w ++ es0 /\
    created_fds es0 = [fd] /\
    forall w2, exists w' es,
      Handle.evconnlistener_free (to_event lev) w2 = Some (tt, w') /\
      trace w' = trace w2 ++ es /\
      map fst es =
        c_event_del (lev_ptr lev)
        :: (if has_flag fl LEV_OPT_CLOSE_ON_FREE then [c_close fd] else [])
        ++ [c_mm_free (lev_ptr lev)].
Proof.
  intros Hrun.
  pose proof (new_bind_success_run b cb_ ptr fl backlog sa socklen w) as H.
  rewrite Hrun in H. cbn in H.
  destruct H as (es0 & fd & Htr & Hbase & Hfd & _ & Hc & _).
  exists es0, fd. split; [exact Htr|]. split; [exact Hc|].
  intros w2.
  unfold Handle.evconnlistener_free, Handle.event_listener_destroy.
  cbn [deref upcast_event address_of]. rewrite Hbase. cbn [ops flags].
  unfold event_get_fd. rewrite Hfd.
  destruct (has_flag fl LEV_OPT_CLOSE_ON_FREE);
    do 2 eexists; (split; [reflexivity|]); trace_of_run;
    split; reflexivity.
Qed.

End MoreBind.

(** ** The accept cycle of the completion backend *)

Section AcceptCycle.
Context {P : Platform}.

Lemma start_no_socket_eq a s_ es :
  es = [(c_socket AF_INET SOCK_STREAM 0, s_)] ->
  (s_ =? INVALID_SOCKET) = true ->
  start_history a (-1) a es.
Proof. intros -> H%Z.eqb_eq. now constructor. Qed.

Lemma start_no_port_eq a s_ r1 r2 r3 es :
  es = socket_setup a s_ r1 r2
       ++ [(c_event_iocp_port_associate (port (as_lev a)) s_ 1, r3)] ->
  (s_ =? INVALID_SOCKET) = false ->
  (r3 <? 0) = true ->
  start_history a (-1) a es.
Proof. intros -> H%Z.eqb_neq H3%Z.ltb_lt. now constructor. Qed.

Lemma start_posted_eq a s_ r1 r2 r3 ok err r es :
  es = socket_setup a s_ r1 r2
       ++ [ (c_event_iocp_port_associate (port (as_lev a)) s_ 1, r3);
            (post_accept a s_, ok);
            (c_WSAGetLastError, err) ] ->
  (s_ =? INVALID_SOCKET) = false ->
  (r3 <? 0) = false ->
  negb (ok =? 0) = false ->
  r = (if err =? ERROR_IO_PENDING then 0 else -1) ->
  start_history a r (set_s a s_) es.
Proof.
  intros -> H%Z.eqb_neq H3%Z.ltb_ge Hok%negb_false_iff%Z.eqb_eq ->.
  subst ok. now constructor.
Qed.

Lemma start_completed_eq a s_ r1 r2 r3 ok buf a' es0 es :
  accepted_history (set_addrbuf (set_s a s_) buf) a' es0 ->
  es = socket_setup a s_ r1 r2
       ++ [ (c_event_iocp_port_associate (port (as_lev a)) s_ 1, r3);
            (post_accept a s_, ok) ]
       ++ es0 ->
  (s_ =? INVALID_SOCKET) = false ->
  (r3 <? 0) = false ->
  negb (ok =? 0) = true ->
  start_history a 0 a' es.
Proof.
  intros Ha -> H%Z.eqb_neq H3%Z.ltb_ge Hok%negb_true_iff%Z.eqb_neq.
  now apply start_completed with (buf := buf).
Qed.

Ltac setup_eq :=
  unfold socket_setup, post_accept;
  repeat match goal with
    | H : negb (has_flag _ _) = true |- _ => apply negb_true_iff in H
    | H : negb (has_flag _ _) = false |- _ => apply negb_false_iff in H
    end;
  match goal with
  | H : has_flag _ _ = _ |- _ => rewrite H
  | _ => idtac
  end;
  reflexivity.

Lemma accept_cycle_history fuel :
  (forall a w, on_return (start_accepting fuel a w)
                 (fun r w' => exists es, trace w' = trace w ++ es /\
                                start_history a (fst r) (snd r) es)) /\
  (forall a key n w, on_return (accepted_socket_cb fuel a key n w)
                       (fun a' w' => exists es, trace w' = trace w ++ es /\
                                       accepted_history a a' es)).
Proof.
  induction fuel as [|fuel [IHs IHc]]; split; intros; try exact I.
  - cbn [start_accepting]. cbv zeta.
    exec_all;
      try (eexists; split; [trace_of_run; reflexivity|]; cbn [fst snd];
           first [ eapply start_no_socket_eq; [reflexivity|assumption]
                 | eapply start_no_port_eq; [setup_eq|assumption..]
                 | eapply start_posted_eq;
                   [setup_eq|try assumption..];
                   match goal with
                   | H : (_ =? ERROR_IO_PENDING) = _ |- _ => now rewrite H
                   end ]).
    all: eapply on_return_bind; [apply IHc|];
      cbv beta; intros a1 w1 (es & Htr & Hh); exec_all;
      (eexists; split; [rewrite Htr; trace_of_run; reflexivity|]);
      cbn [fst snd];
      (eapply start_completed_eq; [exact Hh|setup_eq|assumption..]).
  - cbn [accepted_socket_cb].
    destruct (GetAcceptExSockaddrs _ _ _ _) as [[sa_local socklen_local]
                                                  [sa_remote socklen_remote]]
      eqn:Hsa.
    exec_all. eapply on_return_bind; [apply IHs|].
    cbv beta. intros [r a1] w1 (es & Htr & Hh). exec_all.
    eexists; split; [rewrite Htr; trace_of_run; reflexivity|].
    cbn [s set_s as_lev] in *.
    replace (c_user_cb _ _ _ _ _ _) with (completion_delivery a)
      by (unfold completion_delivery; now rewrite Hsa).
    econstructor. exact Hh.
    Unshelve. all: exact 0.
Qed.

Lemma cycle_frame :
  (forall a r a' es, start_history a r a' es ->
     as_ptr a' = as_ptr a /\ as_lev a' = as_lev a /\ buflen a' = buflen a) /\
  (forall a a' es, accepted_history a a' es ->
     as_ptr a' = as_ptr a /\ as_lev a' = as_lev a /\ buflen a' = buflen a).
Proof.
  apply accept_cycle_ind; intros; cbn in *; intuition congruence.
Qed.

Lemma cycle_event_frame a b e :
  as_ptr b = as_ptr a -> as_lev b = as_lev a -> buflen b = buflen a ->
  cycle_event b e -> cycle_event a e.
Proof.
  intros H1 H2 H3. unfold cycle_event. rewrite H1, H2, H3. auto.
Qed.

Lemma socket_setup_events a s_ r1 r2 :
  Forall (cycle_event a) (socket_setup a s_ r1 r2).
Proof.
  unfold socket_setup.
  destruct (has_flag _ _) eqn:Hf; repeat constructor; cbn; auto.
Qed.

Lemma cycle_events :
  (forall a r a' es, start_history a r a' es -> Forall (cycle_event a) es) /\
  (forall a a' es, accepted_history a a' es -> Forall (cycle_event a) es).
Proof.
  apply accept_cycle_ind; intros.
  - repeat constructor.
  - apply Forall_app. split; [apply socket_setup_events|].
    repeat constructor.
  - apply Forall_app. split; [apply socket_setup_events|].
    repeat constructor.
  - apply Forall_app. split; [apply socket_setup_events|].
    apply Forall_app. split; [repeat constructor|].
    eapply Forall_impl; [|eassumption].
    intros e. now apply cycle_event_frame.
  - constructor; [cbn; auto|].
    eapply Forall_impl; [|eassumption].
    intros e. now apply cycle_event_frame.
Qed.

Lemma start_accepting_history fuel a w r a' w' :
  start_accepting fuel a w = Some ((r, a'), w') ->
  exists es, trace w' = trace w ++ es /\ start_history a r a' es.
Proof.
  intros Hrun.
  exact (on_return_eq _ _ _ _ (proj1 (accept_cycle_history fuel) a w) Hrun).
Qed.

Lemma accepted_socket_cb_history fuel a key n w a' w' :
  accepted_socket_cb fuel a key n w = Some (a', w') ->
  exists es, trace w' = trace w ++ es /\ accepted_history a a' es.
Proof.
  intros Hrun.
  exact (on_return_eq _ _ _ _ (proj2 (accept_cycle_history fuel) a key n w) Hrun).
Qed.

(** X11: a run of [start_accepting], with every completion it handles
    on the way, closes no descriptor, frees and allocates no memory,
    logs nothing, and calls neither [listen] nor the reactor: a socket it
    created stays open on every failure path, and failures are silent. *)
Theorem start_accepting_releases_nothing fuel a w r a' w' :
  start_accepting fuel a w = Some ((r, a'), w') ->
  exists es,
    trace w' = trace w ++ es /\
    closed_fds es = [] /\
    freed_blocks es = [] /\
    log_calls es = [] /\
    registration_calls es = [] /\
    listen_calls es = [] /\
    allocated_blocks es = [].
Proof.
  intros Hrun.
  destruct (start_accepting_history _ _ _ _ _ _ Hrun) as (es & Htr & Hh).
  apply (proj1 cycle_events) in Hh.
  exists es. split; [exact Htr|].
  repeat split;
    (eapply flat_map_nil_Forall; [exact Hh|]);
    intros [c v] Hc; destruct c; try reflexivity; cbn in Hc; contradiction.
Qed.

Lemma valid_sockets_app es1 es2 :
  valid_sockets (es1 ++ es2) = valid_sockets es1 ++ valid_sockets es2.
Proof. unfold valid_sockets. now rewrite created_fds_app, filter_app. Qed.

Lemma socket_setup_sockets a s_ r1 r2 :
  s_ <> INVALID_SOCKET ->
  valid_sockets (socket_setup a s_ r1 r2) = [s_] /\
  nonblocking_calls (socket_setup a s_ r1 r2) =
    (if has_flag (flags (iocp_base (as_lev a))) LEV_OPT_LEAVE_SOCKETS_BLOCKING
     then [] else [s_]).
Proof.
  intros H%Z.eqb_neq. unfold socket_setup, valid_sockets.
  destruct (has_flag _ _); cbn; rewrite H; auto.
Qed.

Lemma cycle_nonblocking :
  (forall a r a' es, start_history a r a' es ->
     nonblocking_calls es =
       if has_flag (flags (iocp_base (as_lev a))) LEV_OPT_LEAVE_SOCKETS_BLOCKING
       then [] else valid_sockets es) /\
  (forall a a' es, accepted_history a a' es ->
     nonblocking_calls es =
       if has_flag (flags (iocp_base (as_lev a))) LEV_OPT_LEAVE_SOCKETS_BLOCKING
       then [] else valid_sockets es).
Proof.
  apply accept_cycle_ind; intros.
  - subst. unfold valid_sockets. cbn. rewrite Z.eqb_refl.
    now destruct (has_flag _ _).
  - destruct (socket_setup_sockets a s_ r1 r2 H) as [Hv Hn].
    rewrite nonblocking_calls_app, valid_sockets_app, Hv, Hn.
    now destruct (has_flag _ _).
  - destruct (socket_setup_sockets a s_ r1 r2 H) as [Hv Hn].
    rewrite nonblocking_calls_app, valid_sockets_app, Hv, Hn.
    now destruct (has_flag _ _).
  - destruct (socket_setup_sockets a s_ r1 r2 H) as [Hv Hn].
    rewrite !nonblocking_calls_app, !valid_sockets_app, Hv, Hn, H3.
    cbn [as_lev set_addrbuf set_s].
    now destruct (has_flag _ _).
  - change ((completion_delivery a, 0) :: es)
      with ([(completion_delivery a, 0)] ++ es).
    rewrite nonblocking_calls_app, valid_sockets_app, H0.
    cbn [as_lev set_s]. now destruct (has_flag _ _).
Qed.

Lemma cycle_slot_socket :
  (forall a r a' es, start_history a r a' es ->
     s a' = s a \/ s a' = INVALID_SOCKET \/ In (s a') (valid_sockets es)) /\
  (forall a a' es, accepted_history a a' es ->
     s a' = INVALID_SOCKET \/ In (s a') (valid_sockets es)).
Proof.
  apply accept_cycle_ind; intros.
  - auto.
  - auto.
  - right. right. rewrite valid_sockets_app.
    rewrite (proj1 (socket_setup_sockets a s_ r1 r2 H)). cbn. auto.
  - destruct H3 as [->|Hin]; [auto|].
    right. right. rewrite !valid_sockets_app. apply in_or_app. right.
    apply in_or_app. now right.
  - change ((completion_delivery a, 0) :: es)
      with ([(completion_delivery a, 0)] ++ es).
    rewrite valid_sockets_app. cbn [s set_s] in H0.
    destruct H0 as [->|[->|Hin]]; auto.
Qed.

(** X12: in a run of [start_accepting], the sockets set non-blocking are
    exactly the sockets that [socket] created, each once and in the order
    of creation, when [LEV_OPT_LEAVE_SOCKETS_BLOCKING] is unset in the
    owner's flags; none is when it is set. *)
Theorem start_accepting_nonblocking fuel a w r a' w' :
  start_accepting fuel a w = Some ((r, a'), w') ->
  exists es,
    trace w' = trace w ++ es /\
    nonblocking_calls es =
      if has_flag (flags (iocp_base (as_lev a))) LEV_OPT_LEAVE_SOCKETS_BLOCKING
      then [] else valid_sockets es.
Proof.
  intros Hrun.
  destruct (start_accepting_history _ _ _ _ _ _ Hrun) as (es & Htr & Hh).
  exists es. split; [exact Htr|]. exact (proj1 cycle_nonblocking _ _ _ _ Hh).
Qed.

(** X14: [accepted_socket_cb] leaves the slot at its address, with its
    owner and its buffer length, and with a socket that is either
    [INVALID_SOCKET] or one that [socket] created during the run. *)
Theorem accepted_socket_cb_lets_go_of_socket fuel a key n w a' w' :
  accepted_socket_cb fuel a key n w = Some (a', w') ->
  exists es,
    trace w' = trace w ++ es /\
    as_ptr a' = as_ptr a /\ as_lev a' = as_lev a /\ buflen a' = buflen a /\
    (s a' = INVALID_SOCKET \/ In (s a') (valid_sockets es)).
Proof.
  intros Hrun.
  destruct (accepted_socket_cb_history _ _ _ _ _ _ _ Hrun) as (es & Htr & Hh).
  exists es. split; [exact Htr|].
  destruct (proj2 cycle_frame _ _ _ Hh) as (H1 & H2 & H3).
  repeat split; auto. exact (proj2 cycle_slot_socket _ _ _ Hh).
Qed.

Lemma start_history_begins a r a' es :
  start_history a r a' es ->
  exists v es', es = (c_socket AF_INET SOCK_STREAM 0, v) :: es'.
Proof. destruct 1; unfold socket_setup; cbn; eauto. Qed.








End AcceptCycle.

(** ** The constructor of the completion backend *)

Section AsyncConstructor.
Context {P : Platform}.

Lemma new_async_history_cast cb_ ptr fl backlog fd family res es res' es' :
  new_async_history cb_ ptr fl backlog fd family res es ->
  es' = es -> res' = res ->
  new_async_history cb_ ptr fl backlog fd family res' es'.
Proof. now intros H -> ->. Qed.

Ltac listened_eq :=
  unfold listened, addrlen_of, async_handle;
  repeat match goal with
    | H : ?c = _ |- context [if ?c then _ else _] => rewrite H
    end;
  reflexivity.

Ltac side := to_Z; subst; first [assumption | lia | exact (Z.le_refl 0) | auto].

Ltac zero_results :=
  repeat match goal with
    | H : (?x =? 0) = true |- _ => is_var x; apply Z.eqb_eq in H; subst x
    | H : negb (?x =? 0) = false |- _ =>
        is_var x; apply negb_false_iff, Z.eqb_eq in H; subst x
    end.

Ltac family_cases :=
  match goal with
  | H : (_ =? AF_INET) = true |- _ \/ _ =>
      left; apply Z.eqb_eq in H; exact H
  | H : (_ =? AF_INET6) = true |- _ \/ _ =>
      right; apply Z.eqb_eq in H; exact H
  end.

Ltac async_case c :=
  eapply new_async_history_cast; [eapply c | listened_eq | reflexivity];
  first [family_cases | side].

Lemma new_async_run fuel b cb_ ptr fl backlog fd w :
  on_return (evconnlistener_new_async fuel b cb_ ptr fl backlog fd w)
    (fun res w' =>
       exists es,
         trace w' = trace w ++ es /\
         new_async_history cb_ ptr fl backlog fd (sa_family (sockname w fd))
           res es).
Proof.
  unfold evconnlistener_new_async, new_accepting_socket. cbv zeta.
  exec_all; cbn [sockname log_event] in *; zero_results.
  all: try (eexists; split; [trace_of_run; try reflexivity;
                              symmetry; apply app_nil_r|];
            first [ solve [async_case async_listen_failed]
                  | solve [async_case async_no_name]
                  | solve [async_case async_no_handle]
                  | solve [async_case async_no_array]
                  | solve [async_case async_no_slot_family]
                  | solve [async_case async_no_slot_memory] ]).
  all: eapply on_return_bind; [apply (proj1 (accept_cycle_history fuel))|];
    cbv beta; intros [r a1] w1 (es & Htr & Hh); cbn [fst snd] in Hh;
    exec_all;
    (eexists; split;
     [cbn [trace log_event]; rewrite Htr; cbn [trace log_event];
      rewrite <- !app_assoc; cbn [app]; reflexivity|]);
    (eapply new_async_history_cast;
     [ eapply async_started with (cycle := es) (r := r) (a' := a1)
     | unfold listened, addrlen_of;
       repeat match goal with
         | H : ?c = _ |- context [if ?c then _ else _] => rewrite H
         end;
       rewrite ?app_nil_r; reflexivity
     | repeat match goal with
         | H : ?c = _ |- context [if ?c then _ else _] => rewrite H
         end;
       reflexivity ]);
    first [ family_cases
          | solve [side]
          | unfold fresh_slot, addrlen_of, async_handle;
            repeat match goal with
              | H : ?c = _ |- context [if ?c then _ else _] => rewrite H
              end;
            exact Hh ].
Qed.
End AsyncConstructor.

Section AsyncProperties.
Context {P : Platform}.

Lemma start_history_quiet a r a' es :
  start_history a r a' es ->
  closed_fds es = [] /\ freed_blocks es = [] /\ allocated_blocks es = [] /\
  listen_calls es = [].
Proof.
  intros Hh. apply (proj1 cycle_events) in Hh.
  repeat split;
    (eapply flat_map_nil_Forall; [exact Hh|]);
    intros [c v] Hc; destruct c; try reflexivity; cbn in Hc; contradiction.
Qed.

Lemma new_async_history_of_run fuel b cb_ ptr fl backlog fd w res w' :
  evconnlistener_new_async fuel b cb_ ptr fl backlog fd w = Some (res, w') ->
  exists es,
    trace w' = trace w ++ es /\
    new_async_history cb_ ptr fl backlog fd (sa_family (sockname w fd)) res es.
Proof.
  intros Hrun.
  exact (on_return_eq _ _ _ _
           (new_async_run fuel b cb_ ptr fl backlog fd w) Hrun).
Qed.


Lemma allocated_one p size :
  p <> 0 -> allocated_blocks [(c_mm_calloc 1 size, p)] = [p].
Proof. intros H%Z.eqb_neq. cbn. now rewrite H. Qed.

(** X17: [evconnlistener_new_async] closes at most the listening
    descriptor it was given.  It closes it exactly when it returns NULL
    after allocating something and before creating a socket (the slot
    array or the slot could not be had), whatever the flags; it has then
    freed every block it allocated, the last one first.  On every other
    path it frees nothing. *)
Theorem new_async_cleanup fuel b cb_ ptr fl backlog fd w res w' :
  evconnlistener_new_async fuel b cb_ ptr fl backlog fd w = Some (res, w') ->
  exists es,
    trace w' = trace w ++ es /\
    ((closed_fds es = [] /\ freed_blocks es = []) \/
     (closed_fds es = [fd] /\ freed_blocks es = rev (allocated_blocks es))) /\
    (closed_fds es = [fd] <->
     res = None /\ allocated_blocks es <> [] /\ socket_calls es = []).
Proof.
  intros Hrun.
  destruct (new_async_history_of_run _ _ _ _ _ _ _ _ _ _ Hrun)
    as (es & Htr & Hh).
  exists es. split; [exact Htr|].
  destruct Hh as [r|r0 rg|r0|r0 p rc|r0 p arr rc|r0 p arr rc
                 |r0 p arr q r a' cycle];
    destruct (listened_quiet fd backlog r0) as (L1 & L2 & L3 & L4 & _) ||
    destruct (listened_quiet fd backlog r) as (L1 & L2 & L3 & L4 & _);
    rewrite ?closed_fds_app, ?freed_blocks_app, ?allocated_blocks_app,
      ?socket_calls_app, ?L1, ?L2, ?L3, ?L4.
  all: try match goal with
         | H : start_history _ _ _ _ |- _ =>
             destruct (start_history_begins _ _ _ _ H) as (v & es' & Hes);
             apply start_history_quiet in H as (Q1 & Q2 & Q3 & _);
             rewrite Q1, Q2, Q3; rewrite Hes
         end.
  all: repeat match goal with
         | H : ?x <> 0 |- _ => apply Z.eqb_neq in H
         end;
       cbn;
       repeat match goal with
         | H : (?x =? 0) = false |- _ => rewrite H
         end;
       cbn.
  all: try (destruct (r =? 0); cbn).
  all: split;
    [ first [ left; split; reflexivity | right; split; reflexivity ]
    | split;
      [ intros Hc; try discriminate Hc; repeat split; discriminate
      | intros (Hr & Ha & Hs); try reflexivity; try discriminate;
        exfalso; now apply Ha ] ].
Qed.

Lemma new_async_handle_shape fuel b cb_ ptr fl backlog fd w lev w' :
  evconnlistener_new_async fuel b cb_ ptr fl backlog fd w = Some (Some lev, w') ->
  exists es p arr q,
    trace w' = trace w ++ es /\
    lev = async_handle cb_ ptr fl fd p arr /\
    allocated_blocks es = [p; arr; q] /\
    freed_blocks es = [] /\ closed_fds es = [].
Proof.
  intros Hrun.
  destruct (new_async_history_of_run _ _ _ _ _ _ _ _ _ _ Hrun)
    as (es & Htr & Hh).
  inversion Hh as [| | | | | |r0 p arr q r a' cycle H0 Hp Harr Hq Hfam Hc Hres Hes].
  destruct (r =? 0); [discriminate|]. injection Hres as <-. subst es.
  eexists. exists p, arr, q. split; [exact Htr|]. split; [reflexivity|].
  destruct (listened_quiet fd backlog r0) as (L1 & L2 & L3 & _).
  apply start_history_quiet in Hc as (Q1 & Q2 & Q3 & _).
  rewrite !closed_fds_app, !freed_blocks_app, !allocated_blocks_app,
    L1, L2, L3, Q1, Q2, Q3.
  apply Z.eqb_neq in Hp, Harr, Hq. cbn. rewrite Hp, Harr, Hq. auto.
Qed.

(** X20: on a handle that [evconnlistener_new_async] returned,
    [evconnlistener_get_fd] returns the descriptor given to the
    constructor, and makes no call. *)
Theorem new_async_get_fd fuel b cb_ ptr fl backlog fd w lev w' :
  evconnlistener_new_async fuel b cb_ ptr fl backlog fd w = Some (Some lev, w') ->
  forall w2, Handle.evconnlistener_get_fd (to_iocp lev) w2 = Some (fd, w2).
Proof.
  intros Hrun w2.
  destruct (new_async_handle_shape _ _ _ _ _ _ _ _ _ _ Hrun)
    as (es & p & arr & q & _ & -> & _).
  reflexivity.
Qed.

(** X21: the run of [evconnlistener_new_async] that returns a handle has
    allocated three blocks (handle, slot array, slot) and freed none;
    [evconnlistener_free] on that handle makes one call, [mm_free] on
    the handle: the slot array and the slot are not freed and no
    descriptor is closed, whatever the flags. *)
Theorem completion_handle_free_leaks fuel b cb_ ptr fl backlog fd w lev w' :
  evconnlistener_new_async fuel b cb_ ptr fl backlog fd w = Some (Some lev, w') ->
  exists es p arr q,
    trace w' = trace w ++ es /\
    allocated_blocks es = [p; arr; q] /\
    freed_blocks es = [] /\
    forall w2,
      Handle.evconnlistener_free (to_iocp lev) w2
        = Some (tt, log_event (c_mm_free p, 0) w2).
Proof.
  intros Hrun.
  destruct (new_async_handle_shape _ _ _ _ _ _ _ _ _ _ Hrun)
    as (es & p & arr & q & Htr & -> & Ha & Hf & _).
  exists es, p, arr, q. repeat split; auto.
Qed.

(** X22: on a handle of the completion backend, [evconnlistener_enable]
    and [evconnlistener_disable] return 0 and make no call. *)
Theorem completion_handle_switch fuel b cb_ ptr fl backlog fd w lev w' :
  evconnlistener_new_async fuel b cb_ ptr fl backlog fd w = Some (Some lev, w') ->
  forall w2,
    Handle.evconnlistener_enable (to_iocp lev) w2 = Some (0, w2) /\
    Handle.evconnlistener_disable (to_iocp lev) w2 = Some (0, w2).
Proof.
  intros Hrun w2.
  destruct (new_async_handle_shape _ _ _ _ _ _ _ _ _ _ Hrun)
    as (es & p & arr & q & _ & -> & _).
  split; reflexivity.
Qed.

Lemma fresh_slot_half lev family q :
  Z.quot (buflen (fresh_slot lev family q)) 2 = addrlen_of family + 16.
Proof. cbn [buflen fresh_slot]. apply Z.quot_mul. discriminate. Qed.

(** X18: every [AcceptEx] call in a run of [evconnlistener_new_async] is
    posted on the listening descriptor, with no receive data, and with a
    local and a remote address length that are each 16 bytes more than
    the socket address of the listening socket's family. *)
Theorem new_async_accept_buffers fuel b cb_ ptr fl backlog fd w res w' :
  evconnlistener_new_async fuel b cb_ ptr fl backlog fd w = Some (res, w') ->
  exists es,
    trace w' = trace w ++ es /\
    Forall (eq fd) (posted_accepts es) /\
    Forall (eq (0, addrlen_of (sa_family (sockname w fd)) + 16,
                addrlen_of (sa_family (sockname w fd)) + 16))
      (acceptex_lengths es).
Proof.
  intros Hrun.
  destruct (new_async_history_of_run _ _ _ _ _ _ _ _ _ _ Hrun)
    as (es & Htr & Hh).
  exists es. split; [exact Htr|].
  destruct Hh as [r|r0 rg|r0|r0 p rc|r0 p arr rc|r0 p arr rc
                 |r0 p arr q r a' cycle];
    destruct (listened_quiet fd backlog r0) as (_ & _ & _ & _ & L5 & L6) ||
    destruct (listened_quiet fd backlog r) as (_ & _ & _ & _ & L5 & L6);
    rewrite ?posted_accepts_app, ?acceptex_lengths_app, ?L5, ?L6;
    try (split; constructor).
  match goal with
  | H : start_history _ _ _ _ |- _ =>
      apply (proj1 cycle_events) in H; rename H into Hc
  end.
  assert (Hw : forall (f : Event -> list Z),
             f (c_event_warnx "Couldn't start accepting on socket", 0) = [] ->
             flat_map f (if r =? 0
                         then [(c_event_warnx
                                  "Couldn't start accepting on socket", 0)]
                         else []) = []).
  { intros f Hf. destruct (r =? 0); cbn; [now rewrite Hf|reflexivity]. }
  split; cbn [app].
  - unfold posted_accepts at 1 3. rewrite Hw by reflexivity.
    cbn. rewrite app_nil_r.
    eapply flat_map_Forall; [exact Hc|].
    intros [c v] He; destruct c; try constructor; cbn in He.
    + now destruct He as (-> & _).
    + constructor.
  - cbn. destruct (r =? 0); cbn; rewrite app_nil_r;
      (eapply flat_map_Forall; [exact Hc|]);
      intros [c v] He; destruct c; try constructor; cbn in He;
      try (destruct He as (_ & _ & -> & -> & ->);
           rewrite Z.quot_mul by discriminate; reflexivity);
      constructor.
Qed.

(** X19: every socket created in a run of [evconnlistener_new_async] is
    an [AF_INET] stream socket, also when the listening socket's family
    is [AF_INET6]. *)
Theorem new_async_sockets_are_inet fuel b cb_ ptr fl backlog fd w res w' :
  evconnlistener_new_async fuel b cb_ ptr fl backlog fd w = Some (res, w') ->
  exists es,
    trace w' = trace w ++ es /\
    Forall (eq (AF_INET, SOCK_STREAM, 0)) (socket_calls es).
Proof.
  intros Hrun.
  destruct (new_async_history_of_run _ _ _ _ _ _ _ _ _ _ Hrun)
    as (es & Htr & Hh).
  exists es. split; [exact Htr|].
  destruct Hh as [r|r0 rg|r0|r0 p rc|r0 p arr rc|r0 p arr rc
                 |r0 p arr q r a' cycle];
    destruct (listened_quiet fd backlog r0) as (_ & _ & _ & L4 & _) ||
    destruct (listened_quiet fd backlog r) as (_ & _ & _ & L4 & _);
    rewrite ?socket_calls_app, ?L4; try constructor.
  match goal with
  | H : start_history _ _ _ _ |- _ =>
      apply (proj1 cycle_events) in H; rename H into Hc
  end.
  cbn. apply Forall_app. split.
  - eapply flat_map_Forall; [exact Hc|].
    intros [c v] He; destruct c; try constructor; cbn in He.
    + destruct He as (-> & -> & ->). reflexivity.
    + constructor.
  - destruct (r =? 0); constructor.
Qed.

End AsyncProperties.

(** ** The extra properties on concrete worlds *)


Lemma enable_registers_witness :
  exists lev w1,
    @evconnlistener_new linux 1 77 88 0 16 7 (world_of [] all_succeed)
      = Some (Some lev, w1) /\
    exists r w',
      Handle.evconnlistener_enable (to_event lev) w1 = Some (r, w') /\
      trace w' = trace w1 ++ [(c_event_add (lev_ptr lev), r)] /\
      registered (lev_ptr lev) (trace w') =
        (if r =? 0 then true else registered (lev_ptr lev) (trace w1)) /\
      forall ev, ev <> lev_ptr lev ->
                 registered ev (trace w') = registered ev (trace w1).
Proof.
  do 2 eexists. split; [lazy; reflexivity|].
  eapply (@enable_registers linux 1 77 88 0 16 7 (world_of [] all_succeed)).
  lazy; reflexivity.
Defined.

Lemma disable_unregisters_witness :
  exists lev w1,
    @evconnlistener_new linux 1 77 88 0 16 7 (world_of [] all_succeed)
      = Some (Some lev, w1) /\
    exists r w',
      Handle.evconnlistener_disable (to_event lev) w1 = Some (r, w') /\
      trace w' = trace w1 ++ [(c_event_del (lev_ptr lev), r)] /\
      registered (lev_ptr lev) (trace w') =
        (if r =? 0 then false else registered (lev_ptr lev) (trace w1)) /\
      forall ev, ev <> lev_ptr lev ->
                 registered ev (trace w') = registered ev (trace w1).
Proof.
  do 2 eexists. split; [lazy; reflexivity|].
  eapply (@disable_unregisters linux 1 77 88 0 16 7 (world_of [] all_succeed)).
  lazy; reflexivity.
Defined.

Lemma constructed_handle_delivers_witness :
  exists lev w1,
    @evconnlistener_new linux 1 77 88 0 16 7 (world_of [] all_succeed)
      = Some (Some lev, w1) /\
    ev_callback (listener lev) = fn_listener_read_cb /\
    ev_arg (listener lev) = lev_ptr lev /\
    exists w' es,
      @listener_read_cb linux 3 (ev_fd (listener lev)) 2 lev
        two_pending_then_error = Some (tt, w') /\
      trace w' = trace two_pending_then_error ++ es /\
      user_cb_calls es =
        map (fun c => c_user_cb 77 (lev_ptr lev) (conn_fd c)
                        (Some (conn_peer c)) (conn_socklen c) 88) two_conns /\
      accept_results es = map conn_fd two_conns ++ [-1] /\
      nonblocking_calls es =
        (if has_flag 0 (@LEV_OPT_LEAVE_SOCKETS_BLOCKING linux) then []
         else map conn_fd two_conns).
Proof.
  do 2 eexists. split; [lazy; reflexivity|].
  eapply (@constructed_handle_delivers linux 1 77 88 0 16 7
            (world_of [] all_succeed) _ _ 3 2 two_conns [accept_fail 24]
            two_pending_then_error);
    [ lazy; reflexivity
    | reflexivity
    | repeat (apply Forall_cons; [cbn; lia|]); apply Forall_nil
    | reflexivity
    | cbn; lia ].
Defined.

Lemma drain_resumes_after_error_witness :
  exists w1 w2 es1 es2,
    @listener_read_cb linux 3 7 2 (@sample_lev linux 0) interrupted_backlog
      = Some (tt, w1) /\
    @listener_read_cb linux 3 7 2 (@sample_lev linux 0) w1 = Some (tt, w2) /\
    trace w1 = trace interrupted_backlog ++ es1 /\
    trace w2 = trace w1 ++ es2 /\
    user_cb_calls es1 = map (delivery (@sample_lev linux 0)) two_conns /\
    user_cb_calls es2 = map (delivery (@sample_lev linux 0)) two_conns /\
    pending w2 = tl [].
Proof.
  apply (@drain_resumes_after_error linux (@sample_lev linux 0) 7 3 3 2
           two_conns 24 two_conns [] interrupted_backlog);
    [ reflexivity
    | repeat (apply Forall_cons; [cbn; lia|]); apply Forall_nil
    | repeat (apply Forall_cons; [cbn; lia|]); apply Forall_nil
    | reflexivity
    | cbn; lia
    | cbn; lia ].
Defined.

Lemma new_bind_success_calls_witness :
  exists lev w',
    @evconnlistener_new_bind linux 1 77 88 12 (-1) (Some sample_addr) 16
      (world_of [] all_succeed) = Some (Some lev, w') /\
    exists es fd,
      trace w' = trace (world_of [] all_succeed) ++ es /\
      created_fds es = [fd] /\
      closed_fds es = [] /\
      (forall w2,
          Handle.evconnlistener_get_fd (to_event lev) w2 = Some (fd, w2)) /\
      map fst es =
        [ c_socket 2 1 0; c_make_socket_nonblocking fd;
          c_fcntl fd 2 1; c_setsockopt fd 1 9 1 4;
          c_make_listen_socket_reuseable fd; c_bind fd sample_addr 16;
          c_listen fd 128; c_mm_calloc 1 160;
          c_event_assign (lev_ptr lev) 1 fd 18 fn_listener_read_cb (lev_ptr lev);
          c_event_add (lev_ptr lev) ].
Proof.
  do 2 eexists. split; [lazy; reflexivity|].
  eapply (@new_bind_success_calls linux 1 77 88 12 (-1) (Some sample_addr) 16
            (world_of [] all_succeed)).
  lazy; reflexivity.
Defined.

Lemma new_bind_failure_causes_witness :
  exists w',
    @evconnlistener_new_bind linux 1 77 88 0 16 (Some sample_addr) 16
      (world_of [] nonblocking_fails) = Some (None, w') /\
    exists es,
      trace w' = trace (world_of [] nonblocking_fails) ++ es /\
      ((es = [] /\ 16 = 0) \/
       exists es0 c v,
         es = es0 ++ [(c, v)] /\
         ((exists family, c = c_socket family (@SOCK_STREAM linux) 0 /\
                          v = -1 /\ es0 = []) \/
          (exists fd, c = c_close fd /\
                      created_fds es = [fd] /\ closed_fds es = [fd]) \/
          (exists fd,
              created_fds es = [fd] /\ closed_fds es = [] /\
              ((c = c_make_socket_nonblocking fd /\ v < 0) \/
               (exists bl, c = c_listen fd bl /\ v < 0) \/
               (exists n size, c = c_mm_calloc n size /\ v = 0))))).
Proof.
  eexists. split; [lazy; reflexivity|].
  eapply (@new_bind_failure_causes linux 1 77 88 0 16 (Some sample_addr) 16
            (world_of [] nonblocking_fails)).
  lazy; reflexivity.
Defined.

Lemma new_bind_then_free_witness :
  exists lev w1,
    @evconnlistener_new_bind linux 1 77 88 2 16 (Some sample_addr) 16
      (world_of [] all_succeed) = Some (Some lev, w1) /\
    exists es0 fd,
      trace w1 = trace (world_of [] all_succeed) ++ es0 /\
      created_fds es0 = [fd] /\
      forall w2, exists w' es,
        @Handle.evconnlistener_free linux (to_event lev) w2 = Some (tt, w') /\
        trace w' = trace w2 ++ es /\
        map fst es =
          c_event_del (lev_ptr lev)
          :: (if has_flag 2 (@LEV_OPT_CLOSE_ON_FREE linux)
              then [c_close fd] else [])
          ++ [c_mm_free (lev_ptr lev)].
Proof.
  do 2 eexists. split; [lazy; reflexivity|].
  eapply (@new_bind_then_free linux 1 77 88 2 16 (Some sample_addr) 16
            (world_of [] all_succeed)).
  lazy; reflexivity.
Defined.

Lemma start_accepting_releases_nothing_witness :
  exists a' w',
    @start_accepting win32 1 sample_slot (world_of [] iocp_all_succeed)
      = Some ((0, a'), w') /\
    exists es,
      trace w' = trace (world_of [] iocp_all_succeed) ++ es /\
      closed_fds es = [] /\
      freed_blocks es = [] /\
      log_calls es = [] /\
      registration_calls es = [] /\
      listen_calls es = [] /\
      allocated_blocks es = [].
Proof.
  do 2 eexists. split; [lazy; reflexivity|].
  eapply (@start_accepting_releases_nothing win32 1 sample_slot
            (world_of [] iocp_all_succeed)).
  lazy; reflexivity.
Defined.

Lemma start_accepting_nonblocking_witness :
  exists a' w',
    @start_accepting win32 1 sample_slot (world_of [] iocp_all_succeed)
      = Some ((0, a'), w') /\
    exists es,
      trace w' = trace (world_of [] iocp_all_succeed) ++ es /\
      nonblocking_calls es =
        if has_flag (flags (iocp_base (as_lev sample_slot)))
             (@LEV_OPT_LEAVE_SOCKETS_BLOCKING win32)
        then [] else @valid_sockets win32 es.
Proof.
  do 2 eexists. split; [lazy; reflexivity|].
  eapply (@start_accepting_nonblocking win32 1 sample_slot
            (world_of [] iocp_all_succeed)).
  lazy; reflexivity.
Defined.


Lemma accepted_socket_cb_lets_go_of_socket_witness :
  exists a' w',
    @accepted_socket_cb win32 2 sample_slot 1 0 (world_of [] iocp_all_succeed)
      = Some (a', w') /\
    exists es,
      trace w' = trace (world_of [] iocp_all_succeed) ++ es /\
      as_ptr a' = as_ptr sample_slot /\
      as_lev a' = as_lev sample_slot /\
      buflen a' = buflen sample_slot /\
      (s a' = @INVALID_SOCKET win32 \/ In (s a') (@valid_sockets win32 es)).
Proof.
  do 2 eexists. split; [lazy; reflexivity|].
  eapply (@accepted_socket_cb_lets_go_of_socket win32 2 sample_slot 1 0
            (world_of [] iocp_all_succeed)).
  lazy; reflexivity.
Defined.



Lemma new_async_cleanup_witness :
  exists w',
    @evconnlistener_new_async win32 2 0 77 88 0 16 7 unix_socket_world
      = Some (None, w') /\
    exists es,
      trace w' = trace unix_socket_world ++ es /\
      ((closed_fds es = [] /\ freed_blocks es = []) \/
       (closed_fds es = [7] /\ freed_blocks es = rev (allocated_blocks es))) /\
      (closed_fds es = [7] <->
       @None evconnlistener_iocp = None /\ allocated_blocks es <> [] /\
       socket_calls es = []).
Proof.
  eexists. split; [lazy; reflexivity|].
  eapply (@new_async_cleanup win32 2 0 77 88 0 16 7 unix_socket_world).
  lazy; reflexivity.
Defined.

Lemma new_async_accept_buffers_witness :
  exists w',
    @evconnlistener_new_async win32 2 0 77 88 0 16 7 inet6_socket_world
      = Some (None, w') /\
    exists es,
      trace w' = trace inet6_socket_world ++ es /\
      Forall (eq 7) (posted_accepts es) /\
      Forall (eq (0, 28 + 16, 28 + 16)) (acceptex_lengths es).
Proof.
  eexists. split; [lazy; reflexivity|].
  eapply (@new_async_accept_buffers win32 2 0 77 88 0 16 7 inet6_socket_world).
  lazy; reflexivity.
Defined.

Lemma new_async_sockets_are_inet_witness :
  exists w',
    @evconnlistener_new_async win32 2 0 77 88 0 16 7 inet6_socket_world
      = Some (None, w') /\
    exists es,
      trace w' = trace inet6_socket_world ++ es /\
      Forall (eq (2, 1, 0)) (socket_calls es).
Proof.
  eexists. split; [lazy; reflexivity|].
  eapply (@new_async_sockets_are_inet win32 2 0 77 88 0 16 7
            inet6_socket_world).
  lazy; reflexivity.
Defined.

Lemma new_async_get_fd_witness :
  exists lev w',
    @evconnlistener_new_async win32 2 0 77 88 0 16 7
      (world_of [] iocp_socket_fails) = Some (Some lev, w') /\
    Handle.evconnlistener_get_fd (to_iocp lev) w' = Some (7, w').
Proof.
  do 2 eexists. split; [lazy; reflexivity|].
  eapply (@new_async_get_fd win32 2 0 77 88 0 16 7
            (world_of [] iocp_socket_fails)).
  lazy; reflexivity.
Defined.

Lemma completion_handle_free_leaks_witness :
  exists lev w',
    @evconnlistener_new_async win32 2 0 77 88 2 16 7
      (world_of [] iocp_socket_fails) = Some (Some lev, w') /\
    exists es p arr q,
      trace w' = trace (world_of [] iocp_socket_fails) ++ es /\
      allocated_blocks es = [p; arr; q] /\
      freed_blocks es = [] /\
      forall w2,
        @Handle.evconnlistener_free win32 (to_iocp lev) w2
          = Some (tt, log_event (c_mm_free p, 0) w2).
Proof.
  do 2 eexists. split; [lazy; reflexivity|].
  eapply (@completion_handle_free_leaks win32 2 0 77 88 2 16 7
            (world_of [] iocp_socket_fails)).
  lazy; reflexivity.
Defined.

Lemma completion_handle_switch_witness :
  exists lev w',
    @evconnlistener_new_async win32 2 0 77 88 0 16 7
      (world_of [] iocp_socket_fails) = Some (Some lev, w') /\
    Handle.evconnlistener_enable (to_iocp lev) w' = Some (0, w') /\
    Handle.evconnlistener_disable (to_iocp lev) w' = Some (0, w').
Proof.
  do 2 eexists. split; [lazy; reflexivity|].
  eapply (@completion_handle_switch win32 2 0 77 88 0 16 7
            (world_of [] iocp_socket_fails)).
  lazy; reflexivity.
Defined.
